(** * Deployment orchestration and performance monitoring of the Cats-vs-Dogs
      MLOps pipeline: a shallow embedding of [model_monitor.py], [deploy.py],
      [smoke_tests.py] and [post_deployment_eval.py], and the properties of
      the specification settled against it.

    Conventions of the embedding.
    - Python floats are idealised as exact rationals ([Q]); comparisons of
      computed accuracies are therefore stated up to [==]. A number too
      large for a double can only be an [int]; formatting it as a float
      raises [OverflowError], which is modelled ([fits_double]). The sums
      and statistics over confidences are exact, so the properties about
      them are stated for confidences in the range the service emits.
    - A Python function that may raise returns a [result]; a function that
      catches every exception returns a plain value.
    - [datetime.now()] readings are explicit arguments, one per reading.
    - Timestamps are microseconds (the resolution of [datetime]) as [Z]. *)

From Stdlib Require Import String Ascii List ZArith QArith Bool Lia.
Import ListNotations.
Open Scope string_scope.
Open Scope list_scope.

(** ** Python exceptions and fallible results *)

Inductive exn : Type :=
| ValueError (msg : string)
| TypeError (msg : string)
| KeyError (key : string)
| AttributeError (msg : string)
| ZeroDivisionError
| OverflowError (msg : string)
| OSError (msg : string).

Inductive result (A : Type) : Type :=
| Ok (a : A)
| Raise (e : exn).
Arguments Ok {A} a.
Arguments Raise {A} e.

Definition bind {A B : Type} (r : result A) (k : A -> result B) : result B :=
  match r with
  | Ok a => k a
  | Raise e => Raise e
  end.

Notation "x <- r ;; k" := (bind r (fun x => k))
  (at level 61, r at next level, right associativity).

(** [a / b] on numbers: raises on a zero divisor. *)
Definition py_div (a b : Q) : result Q :=
  if Qeq_bool b 0 then Raise ZeroDivisionError else Ok (a / b).

(** [a > b] on numbers. *)
Definition Qgtb (a b : Q) : bool := negb (Qle_bool a b).

(** The first integer without a double: converting an integer to a float
    rounds to nearest, ties to even, and raises [OverflowError] from
    [2^1024 - 2^970] on. *)
Definition double_limit : Q := inject_Z (2 ^ 1024 - 2 ^ 970).

(** [float(x)] succeeds: [x] is smaller than [double_limit] in magnitude. *)
Definition fits_double (q : Q) : bool :=
  Qgtb double_limit q && Qgtb q (- double_limit).

(** [len(xs)] and counters as numbers. *)
Definition Qnat (n : nat) : Q := inject_Z (Z.of_nat n).

(** [sum(1 for x in xs if f x)] *)
Definition count {A : Type} (f : A -> bool) (xs : list A) : nat :=
  length (filter f xs).

(** Traverse a list with a fallible function, left to right. *)
Fixpoint mapM {A B : Type} (f : A -> result B) (xs : list A) : result (list B) :=
  match xs with
  | [] => Ok []
  | x :: xs' => y <- f x ;; ys <- mapM f xs' ;; Ok (y :: ys)
  end.

(** ** model_monitor.py *)

Module Monitor.

Definition Time : Type := Z.

(** [timedelta(hours=24)] *)
Definition hours_24 : Z := 24 * 3600 * 1000000.

(** One entry of [predictions_log], as built by [log_prediction]. *)
Record PredictionEntry : Type := {
  timestamp : Time;
  image_path : string;
  predicted_class : string;
  actual_class : option string;
  confidence : option Q;
  correct : option bool
}.

(** The JSON document written by [_save_logs]. *)
Record LogDocument : Type := {
  doc_last_updated : Time;
  doc_total_predictions : nat;
  doc_predictions : list PredictionEntry
}.

(** The monitor object together with the file behind [self.log_file]:
    [log_file = None] when the file does not exist; [writable = false] when
    [open(self.log_file, 'w')] raises. *)
Record State : Type := {
  predictions_log : list PredictionEntry;
  log_file : option LogDocument;
  writable : bool
}.

(** Truth value of an optional string: [None] and [""] are false. *)
Definition truthy (o : option string) : bool :=
  match o with
  | Some s => negb (s =? "")
  | None => false
  end.

(** [_save_logs]: the whole document is rewritten; any exception is logged and
    swallowed. *)
Definition _save_logs (now : Time) (st : State) : State :=
  if writable st then
    {| predictions_log := predictions_log st;
       log_file := Some {| doc_last_updated := now;
                           doc_total_predictions := length (predictions_log st);
                           doc_predictions := predictions_log st |};
       writable := writable st |}
  else st.

(** The entry built in the first statement of [log_prediction]. *)
Definition prediction_entry (now : Time) (image predicted : string)
    (actual : option string) (conf : option Q) : PredictionEntry :=
  {| timestamp := now;
     image_path := image;
     predicted_class := predicted;
     actual_class := actual;
     confidence := conf;
     correct := match actual with
                | Some a => if truthy actual then Some (a =? predicted) else None
                | None => None
                end |}.

(** The f-string of the closing [logger.info]: [{confidence:.2f}] raises a
    [TypeError] when [confidence] is [None], and an [OverflowError] when it
    is an integer too large for a float. *)
Definition format_confidence (conf : option Q) : result unit :=
  match conf with
  | Some c =>
    if fits_double c then Ok tt
    else Raise (OverflowError "int too large to convert to float")
  | None => Raise (TypeError "unsupported format string passed to NoneType.__format__")
  end.

(** [log_prediction]: [now_entry] is the reading taken for the entry,
    [now_saved] the one taken by [_save_logs]. *)
Definition log_prediction (now_entry now_saved : Time) (image predicted : string)
    (actual : option string) (conf : option Q) (st : State) : result unit * State :=
  let entry := prediction_entry now_entry image predicted actual conf in
  let st1 := {| predictions_log := predictions_log st ++ [entry];
                log_file := log_file st;
                writable := writable st |} in
  let st2 := _save_logs now_saved st1 in
  (format_confidence conf, st2).

(** The dictionary returned by [get_performance_metrics] when it is not empty. *)
Record Snapshot : Type := {
  overall_accuracy : Q;
  total_predictions : nat;
  recent_accuracy_24h : Q;
  recent_predictions_24h : nat;
  average_confidence : option Q;
  confidence_min : option Q;
  confidence_max : option Q;
  class_accuracy : list (string * Q);
  last_updated : Time
}.

(** [{}] or a populated dictionary. *)
Inductive Metrics : Type :=
| EmptyMetrics
| MetricsOf (s : Snapshot).

(** [p.get('actual_class')] as a condition. *)
Definition has_label (p : PredictionEntry) : bool := truthy (actual_class p).

(** [p['correct']] as a condition, and as a summand of [df['correct'].sum()]. *)
Definition is_correct (p : PredictionEntry) : bool :=
  match correct p with
  | Some b => b
  | None => false
  end.

Definition label_of (p : PredictionEntry) : string :=
  match actual_class p with
  | Some s => s
  | None => ""
  end.

(** [Series.unique()]: distinct values in order of first appearance. *)
Fixpoint unique (xs : list string) : list string :=
  match xs with
  | [] => []
  | x :: xs' => x :: filter (fun y => negb (y =? x)) (unique xs')
  end.

(** The confidence column without its missing values (pandas skips them). *)
Definition confidences (ps : list PredictionEntry) : list Q :=
  flat_map (fun p => match confidence p with Some c => [c] | None => [] end) ps.

Definition Qminb (a b : Q) : Q := if Qle_bool a b then a else b.
Definition Qmaxb (a b : Q) : Q := if Qle_bool a b then b else a.

(** [mean], [min] and [max] of a column; [None] stands for NaN. The mean is
    computed exactly: as in the code while the column holds values in the
    range of a double. *)
Definition col_mean (cs : list Q) : option Q :=
  match cs with
  | [] => None
  | _ => Some (fold_left Qplus cs 0 / Qnat (length cs))
  end.

Definition col_min (cs : list Q) : option Q :=
  match cs with
  | [] => None
  | c :: cs' => Some (fold_left Qminb cs' c)
  end.

Definition col_max (cs : list Q) : option Q :=
  match cs with
  | [] => None
  | c :: cs' => Some (fold_left Qmaxb cs' c)
  end.

(** [(correct / total) * 100] over a group of entries. *)
Definition accuracy_pct (ps : list PredictionEntry) : result Q :=
  r <- py_div (Qnat (count is_correct ps)) (Qnat (length ps)) ;; Ok (r * 100).

(** Body of the loop over [df['actual_class'].unique()]. *)
Definition class_entry (labeled : list PredictionEntry) (class_name : string)
    : result (string * Q) :=
  let class_df := filter (fun p => label_of p =? class_name) labeled in
  a <- accuracy_pct class_df ;; Ok (class_name, a).

(** [datetime.fromisoformat(p['timestamp']) > recent_cutoff] *)
Definition is_recent (now : Time) (p : PredictionEntry) : bool :=
  (now - hours_24 <? timestamp p)%Z.

(** [get_performance_metrics]: [now] is the reading used for the cutoff,
    [now_updated] the one stored under ['last_updated']. *)
Definition get_performance_metrics (now now_updated : Time)
    (log : list PredictionEntry) : result Metrics :=
  match log with
  | [] => Ok EmptyMetrics
  | _ =>
    let labeled_predictions := filter has_label log in
    match labeled_predictions with
    | [] => Ok EmptyMetrics
    | _ =>
      accuracy <- accuracy_pct labeled_predictions ;;
      let cs := confidences labeled_predictions in
      classes <- mapM (class_entry labeled_predictions)
                      (unique (map label_of labeled_predictions)) ;;
      let recent_predictions := filter (is_recent now) labeled_predictions in
      recent_accuracy <-
        match recent_predictions with
        | [] => Ok 0
        | _ => accuracy_pct recent_predictions
        end ;;
      Ok (MetricsOf
            {| overall_accuracy := accuracy;
               total_predictions := length labeled_predictions;
               recent_accuracy_24h := recent_accuracy;
               recent_predictions_24h := length recent_predictions;
               average_confidence := col_mean cs;
               confidence_min := col_min cs;
               confidence_max := col_max cs;
               class_accuracy := classes;
               last_updated := now_updated |})
    end
  end.

(** [check_model_drift]; the default [threshold] is [5.0]. *)
Definition default_threshold : Q := 5.

Definition check_model_drift (threshold : Q) (now now_updated : Time)
    (log : list PredictionEntry) : result bool :=
  metrics <- get_performance_metrics now now_updated log ;;
  match metrics with
  | EmptyMetrics => Ok false
  | MetricsOf m =>
    let overall_acc := overall_accuracy m in
    let recent_acc := recent_accuracy_24h m in
    if Qeq_bool recent_acc 0 then Ok false
    else
      let drift := overall_acc - recent_acc in
      if Qgtb drift threshold then Ok true else Ok false
  end.

End Monitor.

(** ** The outside world of the deployment scripts *)

Module Net.

(** A decoded JSON value ([response.json()]). *)
Unset Elimination Schemes.
Inductive json : Type :=
| JNull
| JBool (b : bool)
| JNum (q : Q)
| JStr (s : string)
| JArr (items : list json)
| JObj (fields : list (string * json)).
Set Elimination Schemes.

(** An HTTP response as the scripts use it: [json_body = None] when
    [response.json()] raises. *)
Record response : Type := {
  status_code : Z;
  text : string;
  json_body : option json
}.

(** Outcome of [requests.get] / [requests.post]: a response, or an exception
    with its [str(e)]. *)
Inductive http_result : Type :=
| Response (r : response)
| RequestException (msg : string).

(** What a script does to the outside world, in order. *)
Inductive Event : Type :=
| Run (command : string)
| Get (url : string)
| Post (url : string) (file : string)
| Sleep (seconds : Z).

(** The outside world: the events so far and, for each kind of interaction,
    what it answers after a given history.
    - [shell h c]: [subprocess.run(c, shell=True, check=True)] returns with
      exit code 0 (no exception);
    - [http_get h u], [http_post h u f]: the outcome of the request ([f] is
      the path of the uploaded file);
    - [fixture h]: [Some msg] when preparing or opening the smoke-test image
      raises an exception whose text is [msg]. *)
Record World : Type := {
  history : list Event;
  shell : list Event -> string -> bool;
  http_get : list Event -> string -> http_result;
  http_post : list Event -> string -> string -> http_result;
  fixture : list Event -> option string
}.

Definition record (ev : Event) (w : World) : World :=
  {| history := history w ++ [ev];
     shell := shell w;
     http_get := http_get w;
     http_post := http_post w;
     fixture := fixture w |}.

Definition requests_get (url : string) (w : World) : http_result * World :=
  (http_get w (history w) url, record (Get url) w).

Definition requests_post (url file : string) (w : World) : http_result * World :=
  (http_post w (history w) url file, record (Post url file) w).

Definition time_sleep (seconds : Z) (w : World) : World :=
  record (Sleep seconds) w.

(** [d.get(key)] on a decoded object. *)
Fixpoint lookup (key : string) (fields : list (string * json)) : option json :=
  match fields with
  | [] => None
  | (k, v) :: rest => if k =? key then Some v else lookup key rest
  end.

(** [v == s] for a string literal [s]. *)
Definition eq_str (v : option json) (s : string) : bool :=
  match v with
  | Some (JStr t) => t =? s
  | _ => false
  end.

(** Truth value of [d.get(key)]. *)
Definition truthy (v : option json) : bool :=
  match v with
  | None => false
  | Some JNull => false
  | Some (JBool b) => b
  | Some (JNum q) => negb (Qeq_bool q 0)
  | Some (JStr s) => negb (s =? "")
  | Some (JArr items) => match items with [] => false | _ => true end
  | Some (JObj fields) => match fields with [] => false | _ => true end
  end.

(** [needle in haystack] on strings. *)
Fixpoint contains (needle haystack : string) : bool :=
  if prefix needle haystack then true
  else match haystack with
       | EmptyString => false
       | String _ rest => contains needle rest
       end.

(** [key in data] *)
Definition py_in (key : string) (data : json) : result bool :=
  match data with
  | JObj fields => Ok (existsb (fun kv => fst kv =? key) fields)
  | JArr items => Ok (existsb (fun v => eq_str (Some v) key) items)
  | JStr s => Ok (contains key s)
  | _ => Raise (TypeError "argument is not iterable")
  end.

(** [data[key]] for a string [key]. *)
Definition getitem (key : string) (data : json) : result json :=
  match data with
  | JObj fields =>
    match lookup key fields with
    | Some v => Ok v
    | None => Raise (KeyError key)
    end
  | _ => Raise (TypeError "indices must be integers")
  end.

(** [v > 0] *)
Definition positive (v : json) : result bool :=
  match v with
  | JNum q => Ok (Qgtb q 0)
  | JBool b => Ok b
  | _ => Raise (TypeError "'>' not supported")
  end.

End Net.

(** ** smoke_tests.py *)

Module Smoke.
Import Net.

(** The third component of a test result. An f-string is kept as its
    template and arguments; [Exc] is the [str(e)] of a caught exception
    (for an exception raised by the interpreter itself, the exception). *)
Inductive Message : Type :=
| Text (s : string)
| Fmt (template : string) (args : list json)
| Exc (e : exn).

(** An element of [self.test_results]: [(test_name, status, message)]. *)
Definition TestResult : Type := (string * string * Message)%type.

Record SmokeTest : Type := {
  base_url : string;
  test_results : list TestResult
}.

(** [self.test_results.append(r)] *)
Definition append (r : TestResult) (t : SmokeTest) : SmokeTest :=
  {| base_url := base_url t; test_results := test_results t ++ [r] |}.

(** [SmokeTest(base_url)] *)
Definition new (url : string) : SmokeTest :=
  {| base_url := url; test_results := [] |}.

(** [test_health_endpoint] *)
Definition test_health_endpoint (t : SmokeTest) (w : World)
    : bool * SmokeTest * World :=
  let '(res, w1) := requests_get (base_url t ++ "/health")%string w in
  match res with
  | RequestException e =>
    (false, append ("Health Check", "FAIL", Text e) t, w1)
  | Response r =>
    if (status_code r =? 200)%Z then
      match json_body r with
      | None =>
        (false, append ("Health Check", "FAIL", Exc (ValueError "response.json()")) t, w1)
      | Some (JObj fields) =>
        if eq_str (lookup "status" fields) "healthy"
           && truthy (lookup "model_loaded" fields)
        then (true, append ("Health Check", "PASS", Text "Service is healthy") t, w1)
        else (false,
              append ("Health Check", "FAIL", Fmt "Invalid response: {}" [JObj fields]) t,
              w1)
      | Some _ =>
        (false, append ("Health Check", "FAIL", Exc (AttributeError "get")) t, w1)
      end
    else
      (false,
       append ("Health Check", "FAIL", Fmt "HTTP {}" [JNum (inject_Z (status_code r))]) t,
       w1)
  end.

(** [f"{confidence:.2f}"] on a decoded value. *)
Definition format_2f (v : json) : result unit :=
  match v with
  | JNum q =>
    if fits_double q then Ok tt
    else Raise (OverflowError "int too large to convert to float")
  | JBool _ => Ok tt
  | JStr _ => Raise (ValueError "Unknown format code 'f' for object of type 'str'")
  | _ => Raise (TypeError "unsupported format string")
  end.

(** The decision taken on the decoded body of the prediction response; a
    raised exception is the one the enclosing [except] catches. The message
    of the PASS result is formatted before the result is appended. *)
Definition judge_prediction (data : json) : result (string * Message) :=
  has_class <- py_in "predicted_class" data ;;
  has_conf <- (if has_class then py_in "confidence" data else Ok false) ;;
  if has_conf then
    confidence <- getitem "confidence" data ;;
    pos <- positive confidence ;;
    if pos then
      _ <- format_2f confidence ;;
      Ok ("PASS", Fmt "Prediction works (confidence: {:.2f})" [confidence])
    else Ok ("FAIL", Fmt "Zero confidence: {}" [confidence])
  else Ok ("FAIL", Fmt "Invalid response format: {}" [data]).

Definition test_image_path : string := "test_image_smoke.jpg".

(** [test_prediction_endpoint] *)
Definition test_prediction_endpoint (t : SmokeTest) (w : World)
    : bool * SmokeTest * World :=
  match fixture w (history w) with
  | Some e => (false, append ("Prediction", "FAIL", Text e) t, w)
  | None =>
    let '(res, w1) :=
      requests_post (base_url t ++ "/predict")%string test_image_path w in
    match res with
    | RequestException e => (false, append ("Prediction", "FAIL", Text e) t, w1)
    | Response r =>
      if (status_code r =? 200)%Z then
        match json_body r with
        | None =>
          (false, append ("Prediction", "FAIL", Exc (ValueError "response.json()")) t, w1)
        | Some data =>
          match judge_prediction data with
          | Ok (status, msg) => (status =? "PASS", append ("Prediction", status, msg) t, w1)
          | Raise e => (false, append ("Prediction", "FAIL", Exc e) t, w1)
          end
        end
      else
        (false,
         append ("Prediction", "FAIL", Fmt "HTTP {}" [JNum (inject_Z (status_code r))]) t,
         w1)
    end
  end.

(** [test_metrics_endpoint] *)
Definition test_metrics_endpoint (t : SmokeTest) (w : World)
    : bool * SmokeTest * World :=
  let '(res, w1) := requests_get (base_url t ++ "/metrics")%string w in
  match res with
  | RequestException e => (false, append ("Metrics", "FAIL", Text e) t, w1)
  | Response r =>
    if (status_code r =? 200)%Z && contains "inference_requests_total" (text r)
    then (true, append ("Metrics", "PASS", Text "Metrics endpoint working") t, w1)
    else (false, append ("Metrics", "FAIL", Text "Metrics not available") t, w1)
  end.

(** The list at the head of [test_monitoring_services]. *)
Definition monitoring_services : list (string * string) :=
  [ ("Grafana", "http://localhost:3000");
    ("Prometheus", "http://localhost:9090");
    ("MLflow", "http://localhost:5000") ].

(** The result appended for one service, and whether it clears [all_pass]. *)
Definition service_result (service_name : string) (res : http_result)
    : TestResult * bool :=
  match res with
  | Response r =>
    if (status_code r =? 200)%Z
    then ((service_name, "PASS", Text "Service accessible"), true)
    else ((service_name, "FAIL", Fmt "HTTP {}" [JNum (inject_Z (status_code r))]), false)
  | RequestException e =>
    if service_name =? "MLflow"
    then ((service_name, "SKIP",
           Text ("Service not running (optional): " ++ substring 0 50 e)%string), true)
    else ((service_name, "FAIL", Text e), false)
  end.

(** The loop of [test_monitoring_services] over the remaining services. *)
Fixpoint monitoring_loop (services : list (string * string)) (all_pass : bool)
    (t : SmokeTest) (w : World) : bool * SmokeTest * World :=
  match services with
  | [] => (all_pass, t, w)
  | (service_name, url) :: rest =>
    let '(res, w1) := requests_get url w in
    let '(r, ok) := service_result service_name res in
    monitoring_loop rest (all_pass && ok) (append r t) w1
  end.

(** [test_monitoring_services] *)
Definition test_monitoring_services (t : SmokeTest) (w : World)
    : bool * SmokeTest * World :=
  monitoring_loop monitoring_services true t w.

(** The counters of [run_all_tests]. *)
Definition status_of (r : TestResult) : string := snd (fst r).

Definition passed (rs : list TestResult) : nat :=
  count (fun r => status_of r =? "PASS") rs.

Definition failed (rs : list TestResult) : nat :=
  count (fun r => negb (status_of r =? "PASS") && (status_of r =? "FAIL")) rs.

Definition skipped (rs : list TestResult) : nat :=
  count (fun r => negb (status_of r =? "PASS") && negb (status_of r =? "FAIL")) rs.

(** [run_all_tests] *)
Definition run_all_tests (t : SmokeTest) (w : World) : bool * SmokeTest * World :=
  let w0 := time_sleep 10 w in
  let '(_, t1, w1) := test_health_endpoint t w0 in
  let '(_, t2, w2) := test_prediction_endpoint t1 w1 in
  let '(_, t3, w3) := test_metrics_endpoint t2 w2 in
  let '(_, t4, w4) := test_monitoring_services t3 w3 in
  ((failed (test_results t4) =? 0)%nat, t4, w4).

End Smoke.

(** ** deploy.py *)

Module Deploy.
Import Net.

Record DeploymentManager : Type := {
  deployment_type : string;
  base_url : string
}.

(** [DeploymentManager(deployment_type)] *)
Definition new (kind : string) : DeploymentManager :=
  {| deployment_type := kind; base_url := "http://localhost:8000" |}.

(** [run_command]: true iff the process ran and exited with code 0. *)
Definition run_command (command : string) (w : World) : bool * World :=
  (shell w (history w) command, record (Run command) w).

(** The loop shared by both deployment functions:
    [for cmd in commands: if not self.run_command(cmd): return False]
    followed by [return True]. *)
Fixpoint run_commands (commands : list string) (w : World) : bool * World :=
  match commands with
  | [] => (true, w)
  | cmd :: rest =>
    let '(ok, w1) := run_command cmd w in
    if ok then run_commands rest w1 else (false, w1)
  end.

Definition docker_commands : list string :=
  [ "docker-compose down";
    "docker-compose build --no-cache";
    "docker-compose up -d" ].

Definition k8s_commands : list string :=
  [ "kubectl apply -f k8s/";
    "kubectl rollout status deployment/cats-dogs-inference";
    "kubectl get services" ].

Definition deploy_docker_compose (w : World) : bool * World :=
  run_commands docker_commands w.

Definition deploy_kubernetes (w : World) : bool * World :=
  run_commands k8s_commands w.

(** One iteration test of [wait_for_deployment]: the request returned and
    [response.status_code == 200]. *)
Definition poll_ready (res : http_result) : bool :=
  match res with
  | Response r => (status_code r =? 200)%Z
  | RequestException _ => false
  end.

(** The loop of [wait_for_deployment] with [n] iterations left. *)
Fixpoint wait_loop (n : nat) (dm : DeploymentManager) (w : World) : bool * World :=
  match n with
  | O => (false, w)
  | S n' =>
    let '(res, w1) := requests_get (base_url dm ++ "/health")%string w in
    if poll_ready res then (true, w1)
    else wait_loop n' dm (time_sleep 10 w1)
  end.

(** [wait_for_deployment]: [range(max_wait // 10)] iterations. *)
Definition default_max_wait : Z := 300.

Definition attempts (max_wait : Z) : nat := Z.to_nat (max_wait / 10).

Definition wait_for_deployment (max_wait : Z) (dm : DeploymentManager) (w : World)
    : bool * World :=
  wait_loop (attempts max_wait) dm w.

(** [run_smoke_tests]: a fresh [SmokeTest] on the manager's base URL. *)
Definition run_smoke_tests (dm : DeploymentManager) (w : World) : bool * World :=
  let '(ok, _, w1) := Smoke.run_all_tests (Smoke.new (base_url dm)) w in
  (ok, w1).

(** [deploy] *)
Definition deploy (run_tests : bool) (dm : DeploymentManager) (w : World)
    : bool * World :=
  let '(provisioned, w1) :=
    if deployment_type dm =? "docker" then deploy_docker_compose w
    else if deployment_type dm =? "k8s" then deploy_kubernetes w
    else (false, w) in
  if provisioned then
    let '(ready, w2) := wait_for_deployment default_max_wait dm w1 in
    if ready then
      if run_tests then
        let '(tested, w3) := run_smoke_tests dm w2 in
        if tested then (true, w3) else (false, w3)
      else (true, w2)
    else (false, w2)
  else (false, w1).

(** The command [rollback] runs for each deployment type, if any. *)
Definition teardown_command (dm : DeploymentManager) : option string :=
  if deployment_type dm =? "docker" then Some "docker-compose down"
  else if deployment_type dm =? "k8s"
       then Some "kubectl rollout undo deployment/cats-dogs-inference"
       else None.

(** [rollback]: the outcome of the command is ignored. *)
Definition rollback (dm : DeploymentManager) (w : World) : World :=
  match teardown_command dm with
  | Some command => snd (run_command command w)
  | None => w
  end.

End Deploy.

(** ** post_deployment_eval.py *)

Module Eval.
Import Net.

(** An element of the list built by [predict_batch]. *)
Record Prediction : Type := {
  image_path : string;
  predicted_class : json;
  confidence : json;
  probabilities : json
}.

(** The dictionary returned by [evaluate_performance]. *)
Record Summary : Type := {
  overall_accuracy : Q;
  average_confidence : Q;
  total_predictions : nat;
  correct_predictions : nat;
  cat_accuracy : Q;
  dog_accuracy : Q;
  cat_correct : nat;
  dog_correct : nat;
  cat_total : nat;
  dog_total : nat;
  timestamp : Z
}.

(** The evaluator's surroundings: the network, the test directory
    ([class_dir c] lists [test_dir/c/*.jpg], [None] when the directory is
    missing), which images can be opened, and the output file. *)
Record World : Type := {
  net : Net.World;
  class_dir : string -> option (list string);
  can_open : string -> bool;
  output_file : option Summary;
  can_save : bool
}.

Definition with_net (n : Net.World) (w : World) : World :=
  {| net := n;
     class_dir := class_dir w;
     can_open := can_open w;
     output_file := output_file w;
     can_save := can_save w |}.

Record PostDeploymentEvaluator : Type := {
  api_url : string
}.

(** [load_test_data] *)
Definition load_class (w : World) (class_name : string) : list (string * string) :=
  match class_dir w class_name with
  | Some files => map (fun f => (f, class_name)) files
  | None => []
  end.

Definition load_test_data (w : World) : list string * list string :=
  let loaded := flat_map (load_class w) ["cat"; "dog"] in
  (map fst loaded, map snd loaded).

(** The dictionary appended by [predict_batch] for a decoded body; a raised
    exception is the one its [except] catches. *)
Definition prediction_of (img_path : string) (pred_data : json) : result Prediction :=
  c <- getitem "predicted_class" pred_data ;;
  f <- getitem "confidence" pred_data ;;
  p <- getitem "probabilities" pred_data ;;
  Ok {| image_path := img_path; predicted_class := c; confidence := f; probabilities := p |}.

(** What one request contributes to [predictions]. *)
Definition prediction_from (img_path : string) (res : http_result) : list Prediction :=
  match res with
  | Response r =>
    if (status_code r =? 200)%Z then
      match json_body r with
      | Some pred_data =>
        match prediction_of img_path pred_data with
        | Ok p => [p]
        | Raise _ => []
        end
      | None => []
      end
    else []
  | RequestException _ => []
  end.

(** [predict_batch] *)
Fixpoint predict_batch (ev : PostDeploymentEvaluator) (image_paths : list string)
    (w : World) : list Prediction * World :=
  match image_paths with
  | [] => ([], w)
  | img_path :: rest =>
    if can_open w img_path then
      let '(res, n1) := requests_post (api_url ev ++ "/predict")%string img_path (net w) in
      let '(ps, w2) := predict_batch ev rest (with_net n1 w) in
      (prediction_from img_path res ++ ps, w2)
    else predict_batch ev rest w
  end.

(** A number as Python arithmetic sees it ([True] is 1). *)
Definition number (v : json) : result Q :=
  match v with
  | JNum q => Ok q
  | JBool b => Ok (if b then 1 else 0)
  | _ => Raise (TypeError "unsupported operand type(s) for +")
  end.

(** [sum(confidences)], computed exactly: as in the code while no partial
    sum leaves the range of a double, which is so for confidences between
    0 and 1. *)
Fixpoint py_sum (acc : Q) (vs : list json) : result Q :=
  match vs with
  | [] => Ok acc
  | v :: rest => q <- number v ;; py_sum (acc + q) rest
  end.

(** [a / b if b > 0 else 0] *)
Definition ratio (a b : nat) : result Q :=
  if (0 <? b)%nat then py_div (Qnat a) (Qnat b) else Ok 0.

(** The exception raised by the length check of [evaluate_performance]. *)
Definition mismatch : exn :=
  ValueError "Predictions and true labels length mismatch".

(** [evaluate_performance]; [now] is the reading stored under ['timestamp']. *)
Definition evaluate_performance (now : Z) (predictions : list Prediction)
    (true_labels : list string) : result Summary :=
  if negb (length predictions =? length true_labels)%nat then
    Raise mismatch
  else
    let pairs := combine predictions true_labels in
    let correct :=
      count (fun pt => eq_str (Some (predicted_class (fst pt))) (snd pt)) pairs in
    let total := length predictions in
    let confidences := map (fun pt => confidence (fst pt)) pairs in
    accuracy <- ratio correct total ;;
    avg_confidence <-
      match confidences with
      | [] => Ok 0
      | _ => s <- py_sum 0 confidences ;; py_div s (Qnat (length confidences))
      end ;;
    let cat_correct :=
      count (fun pt => eq_str (Some (predicted_class (fst pt))) "cat"
                       && (snd pt =? "cat")) pairs in
    let dog_correct :=
      count (fun pt => eq_str (Some (predicted_class (fst pt))) "dog"
                       && (snd pt =? "dog")) pairs in
    let cat_total := count (fun t => t =? "cat") true_labels in
    let dog_total := count (fun t => t =? "dog") true_labels in
    cat_accuracy <- ratio cat_correct cat_total ;;
    dog_accuracy <- ratio dog_correct dog_total ;;
    Ok {| overall_accuracy := accuracy;
          average_confidence := avg_confidence;
          total_predictions := total;
          correct_predictions := correct;
          cat_accuracy := cat_accuracy;
          dog_accuracy := dog_accuracy;
          cat_correct := cat_correct;
          dog_correct := dog_correct;
          cat_total := cat_total;
          dog_total := dog_total;
          timestamp := now |}.

(** [save_results]: [open(output_file, 'w')] may raise. *)
Definition save_results (results : Summary) (w : World) : result unit * World :=
  if can_save w then
    (Ok tt, {| net := net w;
               class_dir := class_dir w;
               can_open := can_open w;
               output_file := Some results;
               can_save := can_save w |})
  else (Raise (OSError "open"), w).

(** [run_evaluation]: [None] is the bare [return] taken when no test image
    is found. *)
Definition run_evaluation (now : Z) (save_to_file : bool)
    (ev : PostDeploymentEvaluator) (w : World) : result (option Summary) * World :=
  let '(image_paths, true_labels) := load_test_data w in
  match image_paths with
  | [] => (Ok None, w)
  | _ =>
    let '(predictions, w1) := predict_batch ev image_paths w in
    match evaluate_performance now predictions true_labels with
    | Raise e => (Raise e, w1)
    | Ok results =>
      if save_to_file then
        match save_results results w1 with
        | (Ok _, w2) => (Ok (Some results), w2)
        | (Raise e, w2) => (Raise e, w2)
        end
      else (Ok (Some results), w1)
    end
  end.

End Eval.

(** ** model_monitor.py, continued: loading the log and the batch test *)

Module MonitorRun.
Import Monitor.

(** What [_load_existing_logs] gets from an existing log file: an exception
    ([open] or [json.load] raises, or the document is not an object), or
    the value of [data.get('predictions')], absent when the key is. *)
Inductive LogRead : Type :=
| Unreadable
| Decoded (predictions : option (list PredictionEntry)).

(** Reading back a document written by [_save_logs]. *)
Definition read_back (d : LogDocument) : LogRead :=
  Decoded (Some (doc_predictions d)).

(** [_load_existing_logs]: [file = None] when the file does not exist. *)
Definition _load_existing_logs (file : option LogRead) (log : list PredictionEntry)
    : list PredictionEntry :=
  match file with
  | None => log
  | Some (Decoded (Some ps)) => ps
  | Some (Decoded None) => []
  | Some Unreadable => []
  end.

(** [__init__]: the log starts empty and is then loaded. *)
Definition init (file : option LogRead) : list PredictionEntry :=
  _load_existing_logs file [].

(** A new monitor object on the log file of [st]. *)
Definition reopen (st : State) : State :=
  {| predictions_log := init (option_map read_back (log_file st));
     log_file := log_file st;
     writable := writable st |}.

(** The decoded body of a prediction response as [test_with_known_images]
    reads it: a JSON object whose ['predicted_class'] is a string and whose
    ['confidence'] is absent ([None]), [null] ([Some None]) or a number. *)
Record PredictBody : Type := {
  body_predicted_class : string;
  body_confidence : option (option Q)
}.

(** Outcome of the POST of one image: an exception, or a status with the
    decoded body ([None] when decoding raises). *)
Inductive PredictReply : Type :=
| RequestFailed (msg : string)
| Reply (status_code : Z) (body : option PredictBody).

(** The surroundings of a batch test: the monitor, the images posted so far
    and what the service answers after them, the test directory, the clock
    ([clock n] is reading number [n] of [datetime.now()]) and the number of
    half-second pauses taken. *)
Record World : Type := {
  monitor : State;
  posted : list string;
  predict : list string -> string -> PredictReply;
  test_dir_exists : bool;
  class_dir : string -> option (list string);
  can_open : string -> bool;
  clock : nat -> Time;
  reads : nat;
  pauses : nat
}.

Definition post_image (image_path : string) (w : World) : PredictReply * World :=
  (predict w (posted w) image_path,
   {| monitor := monitor w;
      posted := posted w ++ [image_path];
      predict := predict w;
      test_dir_exists := test_dir_exists w;
      class_dir := class_dir w;
      can_open := can_open w;
      clock := clock w;
      reads := reads w;
      pauses := pauses w |}).

(** [self.log_prediction(...)] inside the world: two clock readings. *)
Definition log_in_world (image_path predicted : string) (actual : option string)
    (conf : option Q) (w : World) : result unit * World :=
  let '(r, st) := log_prediction (clock w (reads w)) (clock w (S (reads w)))
                    image_path predicted actual conf (monitor w) in
  (r, {| monitor := st;
         posted := posted w;
         predict := predict w;
         test_dir_exists := test_dir_exists w;
         class_dir := class_dir w;
         can_open := can_open w;
         clock := clock w;
         reads := S (S (reads w));
         pauses := pauses w |}).

(** [time.sleep(0.5)] *)
Definition pause (w : World) : World :=
  {| monitor := monitor w;
     posted := posted w;
     predict := predict w;
     test_dir_exists := test_dir_exists w;
     class_dir := class_dir w;
     can_open := can_open w;
     clock := clock w;
     reads := reads w;
     pauses := S (pauses w) |}.

(** The list [test_images]: at most five images per class, cats first. *)
Definition class_images (w : World) (class_name : string) : list (string * string) :=
  match class_dir w class_name with
  | Some images => map (fun img => (img, class_name)) (firstn 5 images)
  | None => []
  end.

Definition test_images (w : World) : list (string * string) :=
  flat_map (class_images w) ["cat"; "dog"].

(** [result.get('confidence', 0)] *)
Definition confidence_or_zero (b : PredictBody) : option Q :=
  match body_confidence b with
  | None => Some 0
  | Some c => c
  end.

(** The loop of [test_with_known_images] over the remaining images; every
    exception raised in its body is caught and logged. *)
Fixpoint test_loop (images : list (string * string))
    (correct_predictions total_predictions : nat) (w : World) : nat * nat * World :=
  match images with
  | [] => (correct_predictions, total_predictions, w)
  | (image_path, actual_class) :: rest =>
    if can_open w image_path then
      let '(reply, w1) := post_image image_path w in
      match reply with
      | RequestFailed _ => test_loop rest correct_predictions total_predictions w1
      | Reply code body =>
        if (code =? 200)%Z then
          match body with
          | None => test_loop rest correct_predictions total_predictions w1
          | Some b =>
            let predicted_class := body_predicted_class b in
            let '(r, w2) := log_in_world image_path predicted_class (Some actual_class)
                              (confidence_or_zero b) w1 in
            match r with
            | Raise _ => test_loop rest correct_predictions total_predictions w2
            | Ok _ =>
              test_loop rest
                (if predicted_class =? actual_class
                 then S correct_predictions else correct_predictions)
                (S total_predictions) (pause w2)
            end
          end
        else test_loop rest correct_predictions total_predictions w1
      end
    else test_loop rest correct_predictions total_predictions w
  end.

(** [test_with_known_images]: [Ok None] is the bare [return] taken when the
    test directory does not exist. *)
Definition test_with_known_images (w : World) : result (option Q) * World :=
  if test_dir_exists w then
    let '(correct_predictions, total_predictions, w1) := test_loop (test_images w) 0 0 w in
    if (0 <? total_predictions)%nat then
      (a <- py_div (Qnat correct_predictions) (Qnat total_predictions) ;;
       Ok (Some (a * 100)), w1)
    else (Ok (Some 0), w1)
  else (Ok None, w).

End MonitorRun.

(** ** The command-line entry points *)

(** [deploy.py]: [main]. *)
Module DeployCli.
Import Net.

(** [--type] accepts the two choices only. *)
Inductive DeployType : Type := Docker | K8s.

Definition type_name (t : DeployType) : string :=
  match t with
  | Docker => "docker"
  | K8s => "k8s"
  end.

Record Args : Type := {
  type : DeployType;
  no_tests : bool;
  rollback : bool
}.

(** [main]: the returned number is the exit status. *)
Definition main (args : Args) (w : World) : Z * World :=
  let deployer := Deploy.new (type_name (type args)) in
  if rollback args then (0%Z, Deploy.rollback deployer w)
  else
    let '(success, w1) := Deploy.deploy (negb (no_tests args)) deployer w in
    (if success then 0%Z else 1%Z, w1).

End DeployCli.

(** [smoke_tests.py]: [main]. *)
Module SmokeCli.
Import Net.

Record Args : Type := {
  url : string;
  fail_on_error : bool
}.

(** [main]: [sys.exit(1)] and [return 1] both end the process with status 1. *)
Definition main (args : Args) (w : World) : Z * Smoke.SmokeTest * World :=
  let '(success, t, w1) := Smoke.run_all_tests (Smoke.new (url args)) w in
  if negb success && fail_on_error args then (1%Z, t, w1)
  else (if success then 0%Z else 1%Z, t, w1).

End SmokeCli.

(** [post_deployment_eval.py]: [main]. *)
Module EvalCli.

Record Args : Type := {
  api_url : string;
  output : string;
  no_save : bool
}.

(** [main]: the summary is printed by subscripting [results], which raises
    when [run_evaluation] returned [None]. *)
Definition main (now : Z) (args : Args) (w : Eval.World) : result unit * Eval.World :=
  let evaluator := {| Eval.api_url := api_url args |} in
  let '(r, w1) := Eval.run_evaluation now (negb (no_save args)) evaluator w in
  match r with
  | Raise e => (Raise e, w1)
  | Ok None => (Raise (TypeError "'NoneType' object is not subscriptable"), w1)
  | Ok (Some _) => (Ok tt, w1)
  end.

End EvalCli.

(** * Observations and scenarios used in the statements *)

Module Observe.
Import Net.

(** The commands among a sequence of events, in order. *)
Definition commands_of (evs : list Event) : list string :=
  flat_map (fun ev => match ev with Run c => [c] | _ => [] end) evs.

(** [w'] is reached from [w] by events that run no command. *)
Definition quiet (w w' : World) : Prop :=
  exists evs, history w' = history w ++ evs /\ commands_of evs = [].

(** The name and status of a test result. *)
Definition name_status (r : Smoke.TestResult) : string * string :=
  (fst (fst r), Smoke.status_of r).

(** The number of GET requests among a sequence of events. *)
Definition gets (evs : list Event) : nat :=
  count (fun ev => match ev with Get _ => true | _ => false end) evs.

(** The command list [deploy] selects for a deployment type. *)
Definition provisioning_commands (dm : Deploy.DeploymentManager) : option (list string) :=
  if Deploy.deployment_type dm =? "docker" then Some Deploy.docker_commands
  else if Deploy.deployment_type dm =? "k8s" then Some Deploy.k8s_commands
  else None.

Definition plan (dm : Deploy.DeploymentManager) : list string :=
  match provisioning_commands dm with
  | Some commands => commands
  | None => []
  end.

(** The events of [i] unsuccessful iterations of [wait_for_deployment], and
    the answer its poll number [i] (from 0) gets when the wait starts in [w]. *)
Definition health_url (dm : Deploy.DeploymentManager) : string :=
  (Deploy.base_url dm ++ "/health")%string.

Fixpoint polls_before (url : string) (i : nat) : list Event :=
  match i with
  | O => []
  | S i' => Get url :: Sleep 10 :: polls_before url i'
  end.

Definition nth_poll (dm : Deploy.DeploymentManager) (w : World) (i : nat) : http_result :=
  http_get w (history w ++ polls_before (health_url dm) i) (health_url dm).

(** A healthy poll in the words of the specification: a success status and
    a body asserting the ready condition ([status == "healthy"] with
    [model_loaded] true). *)
Definition spec_healthy (res : http_result) : bool :=
  match res with
  | Response r =>
    (status_code r =? 200)%Z &&
    match json_body r with
    | Some (JObj fields) =>
      eq_str (lookup "status" fields) "healthy" && truthy (lookup "model_loaded" fields)
    | _ => false
    end
  | RequestException _ => false
  end.

(** The status the specification gives an auxiliary service: Pass on 200,
    Fail on any other status; when unreachable, Skip if optional, else Fail. *)
Definition spec_service_status (optional : bool) (res : http_result) : string :=
  match res with
  | Response r => if (status_code r =? 200)%Z then "PASS" else "FAIL"
  | RequestException _ => if optional then "SKIP" else "FAIL"
  end.

(** A world in which nothing works: every command fails, every request
    raises. *)
Definition w_down : World :=
  {| history := [];
     shell := fun _ _ => false;
     http_get := fun _ _ => RequestException "connection refused";
     http_post := fun _ _ _ => RequestException "connection refused";
     fixture := fun _ => None |}.

(** A world in which only the image build fails. *)
Definition w_build_fails : World :=
  {| history := [];
     shell := fun _ c => negb (c =? "docker-compose build --no-cache");
     http_get := fun _ _ => RequestException "connection refused";
     http_post := fun _ _ _ => RequestException "connection refused";
     fixture := fun _ => None |}.

(** A world whose service answers 200 on every URL while reporting that its
    model is not loaded. *)
Definition starting_body : json :=
  JObj [("status", JStr "starting"); ("model_loaded", JBool false)].

Definition w_starting : World :=
  {| history := [];
     shell := fun _ _ => true;
     http_get := fun _ _ =>
       Response {| status_code := 200; text := ""; json_body := Some starting_body |};
     http_post := fun _ _ _ => RequestException "connection refused";
     fixture := fun _ => None |}.

(** A log with one correct labeled entry older than 24 hours and one wrong
    labeled entry inside the window, both written by [log_prediction]. *)
Definition drifting_log : list Monitor.PredictionEntry :=
  let log_prediction := Monitor.log_prediction in
  let predictions_log := Monitor.predictions_log in
  let hours_24 := Monitor.hours_24 in
  let s0 := {| Monitor.predictions_log := []; Monitor.log_file := None;
               Monitor.writable := true |} in
  let s1 := snd (log_prediction 0%Z 1%Z "old.jpg" "cat" (Some "cat") (Some 0.9) s0) in
  let s2 := snd (log_prediction (hours_24 + 5)%Z (hours_24 + 6)%Z
                   "new.jpg" "dog" (Some "cat") (Some 0.8) s1) in
  predictions_log s2.

(** The three labeled predictions of the worked example, as log entries of
    the monitor and as inputs of the evaluator. *)
Definition example_log (t1 t2 t3 : Z) : list Monitor.PredictionEntry :=
  [ Monitor.prediction_entry t1 "1.jpg" "cat" (Some "cat") (Some 0.9);
    Monitor.prediction_entry t2 "2.jpg" "dog" (Some "cat") (Some 0.8);
    Monitor.prediction_entry t3 "3.jpg" "dog" (Some "dog") (Some 0.7) ].

Definition example_prediction (path class : string) (conf : Q) : Eval.Prediction :=
  {| Eval.image_path := path;
     Eval.predicted_class := JStr class;
     Eval.confidence := JNum conf;
     Eval.probabilities := JObj [] |}.

Definition example_predictions : list Eval.Prediction :=
  [ example_prediction "1.jpg" "cat" 0.9;
    example_prediction "2.jpg" "dog" 0.8;
    example_prediction "3.jpg" "dog" 0.7 ].

Definition example_labels : list string := ["cat"; "cat"; "dog"].

(** A test set of one cat and one dog image in which the request for the
    dog image is refused. *)
Definition prediction_body : json :=
  JObj [ ("predicted_class", JStr "cat");
         ("confidence", JNum 0.9);
         ("probabilities", JObj [("cat", JNum 0.9); ("dog", JNum 0.1)]) ].

Definition w_dog_refused : Eval.World :=
  {| Eval.net :=
       {| history := [];
          shell := fun _ _ => true;
          http_get := fun _ _ => RequestException "unused";
          http_post := fun _ _ file =>
            if file =? "test/cat/c1.jpg"
            then Response {| status_code := 200; text := "";
                             json_body := Some prediction_body |}
            else Response {| status_code := 500; text := ""; json_body := None |};
          fixture := fun _ => None |};
     Eval.class_dir := fun c =>
       if c =? "cat" then Some ["test/cat/c1.jpg"]
       else if c =? "dog" then Some ["test/dog/d1.jpg"] else None;
     Eval.can_open := fun _ => true;
     Eval.output_file := None;
     Eval.can_save := true |}.

End Observe.

(** * Further scenarios *)

Module Cases.
Import Net.

(** A monitor that has logged nothing, on a writable and on a read-only
    log file. *)
Definition fresh_monitor : Monitor.State :=
  {| Monitor.predictions_log := []; Monitor.log_file := None;
     Monitor.writable := true |}.

Definition readonly_monitor : Monitor.State :=
  {| Monitor.predictions_log := []; Monitor.log_file := None;
     Monitor.writable := false |}.

(** A log whose old labeled entry is wrong and whose recent one is right. *)
Definition improving_log : list Monitor.PredictionEntry :=
  [ Monitor.prediction_entry 0%Z "old.jpg" "dog" (Some "cat") (Some 0.6);
    Monitor.prediction_entry (Monitor.hours_24 + 5)%Z "new.jpg" "cat" (Some "cat")
      (Some 0.9) ].

(** A test directory with seven cat images and one dog image, and a service
    that answers every image with class cat, without a confidence for the
    dog image. *)
Definition w_batch : MonitorRun.World :=
  {| MonitorRun.monitor := fresh_monitor;
     MonitorRun.posted := [];
     MonitorRun.predict := fun _ img =>
       MonitorRun.Reply 200
         (Some {| MonitorRun.body_predicted_class := "cat";
                  MonitorRun.body_confidence :=
                    if img =? "d1.jpg" then Some None else Some (Some 0.9) |});
     MonitorRun.test_dir_exists := true;
     MonitorRun.class_dir := fun c =>
       if c =? "cat"
       then Some ["c1.jpg"; "c2.jpg"; "c3.jpg"; "c4.jpg"; "c5.jpg"; "c6.jpg"; "c7.jpg"]
       else if c =? "dog" then Some ["d1.jpg"] else None;
     MonitorRun.can_open := fun _ => true;
     MonitorRun.clock := fun n => Z.of_nat n;
     MonitorRun.reads := 0;
     MonitorRun.pauses := 0 |}.

(** A manager for a deployment type the script does not know. *)
Definition swarm_manager : Deploy.DeploymentManager := Deploy.new "swarm".

(** A world in which every command succeeds and the service is ready and
    passes every probe. *)
Definition healthy_body : json :=
  JObj [("status", JStr "healthy"); ("model_loaded", JBool true)].

Definition w_up : World :=
  {| history := [];
     shell := fun _ _ => true;
     http_get := fun _ _ =>
       Response {| status_code := 200; text := "inference_requests_total 3";
                   json_body := Some healthy_body |};
     http_post := fun _ _ _ =>
       Response {| status_code := 200; text := "";
                   json_body := Some Observe.prediction_body |};
     fixture := fun _ => None |}.

(** What one endpoint probe does to the suite: it appends a single result
    under its name, PASS or FAIL, and returns whether it was PASS. *)
Definition probe_outcome (name : string) (t : Smoke.SmokeTest)
    (out : bool * Smoke.SmokeTest * World) : Prop :=
  exists status msg,
    snd (fst out) = Smoke.append (name, status, msg) t /\
    (status = "PASS" \/ status = "FAIL") /\
    fst (fst out) = (status =? "PASS").

(** The names of the six results of one run, in order. *)
Definition probe_names : list string :=
  ["Health Check"; "Prediction"; "Metrics"; "Grafana"; "Prometheus"; "MLflow"].

(** The number of FAIL entries among names and statuses. *)
Definition fail_count (rows : list (string * string)) : nat :=
  count (fun row => snd row =? "FAIL") rows.

(** A prediction whose confidence is usable in arithmetic. *)
Definition numeric_confidence (p : Eval.Prediction) : Prop :=
  exists q, Eval.number (Eval.confidence p) = Ok q.

(** A prediction whose confidence is a number between 0 and 1, as the
    service emits it. *)
Definition unit_confidence (p : Eval.Prediction) : Prop :=
  exists q, Eval.number (Eval.confidence p) = Ok q /\ 0 <= q /\ q <= 1.

(** An evaluator world without any test image. *)
Definition w_no_images : Eval.World :=
  {| Eval.net := w_up;
     Eval.class_dir := fun _ => None;
     Eval.can_open := fun _ => true;
     Eval.output_file := None;
     Eval.can_save := true |}.

(** A prediction whose confidence came back as [null]. *)
Definition null_confidence_prediction : Eval.Prediction :=
  {| Eval.image_path := "1.jpg";
     Eval.predicted_class := JStr "cat";
     Eval.confidence := JNull;
     Eval.probabilities := JObj [] |}.

(** A test set of one cat and one dog image with a service that answers
    every image. *)
Definition w_two_images : Eval.World :=
  {| Eval.net := w_up;
     Eval.class_dir := fun c =>
       if c =? "cat" then Some ["test/cat/c1.jpg"]
       else if c =? "dog" then Some ["test/dog/d1.jpg"] else None;
     Eval.can_open := fun _ => true;
     Eval.output_file := None;
     Eval.can_save := true |}.

Definition local_evaluator : Eval.PostDeploymentEvaluator :=
  {| Eval.api_url := "http://localhost:8000" |}.

(** The exception [sum] raises on a confidence that is not a number. *)
Definition not_a_number : exn := TypeError "unsupported operand type(s) for +".

(** The image and true label of a log entry. *)
Definition labeled_image (e : Monitor.PredictionEntry) : string * option string :=
  (Monitor.image_path e, Monitor.actual_class e).

Definition as_labeled (ic : string * string) : string * option string :=
  (fst ic, Some (snd ic)).

(** [xs] is [ys] with some elements left out. *)
Inductive subseq {A : Type} : list A -> list A -> Prop :=
| subseq_nil : subseq [] []
| subseq_skip (y : A) (xs ys : list A) : subseq xs ys -> subseq xs (y :: ys)
| subseq_take (x : A) (xs ys : list A) : subseq xs ys -> subseq (x :: xs) (x :: ys).

(** The files of a class directory of the batch test, none when the
    directory is missing. *)
Definition class_files (w : MonitorRun.World) (class_name : string) : list string :=
  match MonitorRun.class_dir w class_name with
  | Some files => files
  | None => []
  end.

(** The images a batch test considers: the first five of each class. *)
Definition candidates (w : MonitorRun.World) : list (string * string) :=
  map (fun f => (f, "cat")) (firstn 5 (class_files w "cat"))
  ++ map (fun f => (f, "dog")) (firstn 5 (class_files w "dog")).

(** The call of [log_prediction] that appended [e] returned normally, so
    that the batch test counted the prediction. *)
Definition counted (e : Monitor.PredictionEntry) : bool :=
  match Monitor.format_confidence (Monitor.confidence e) with
  | Ok _ => true
  | Raise _ => false
  end.

Definition counted_correct (e : Monitor.PredictionEntry) : bool :=
  counted e && Monitor.is_correct e.

(** The accuracy in percent over the counted entries, 0 when there is none. *)
Definition batch_accuracy (added : list Monitor.PredictionEntry) : Q :=
  if (0 <? count counted added)%nat
  then Qnat (count counted_correct added) / Qnat (count counted added) * 100
  else 0.

(** What a run of the loop has done, relative to the world it started in:
    the images posted, the entries appended, and the bookkeeping. *)
Definition loop_effect (images : list (string * string)) (c t : nat)
    (w : MonitorRun.World) (c' t' : nat) (w' : MonitorRun.World) : Prop :=
  exists added : list Monitor.PredictionEntry,
    MonitorRun.posted w'
      = MonitorRun.posted w ++ filter (MonitorRun.can_open w) (map fst images) /\
    Monitor.predictions_log (MonitorRun.monitor w')
      = Monitor.predictions_log (MonitorRun.monitor w) ++ added /\
    subseq (map labeled_image added) (map as_labeled images) /\
    t' = (t + count counted added)%nat /\
    c' = (c + count counted_correct added)%nat /\
    MonitorRun.pauses w' = (MonitorRun.pauses w + count counted added)%nat.

End Cases.

(** * Properties of the performance monitor *)

Section MonitorProperties.
Import Monitor Observe.

Lemma Qnat_nonzero (n : nat) : n <> O -> Qeq_bool (Qnat n) 0 = false.
Proof.
  intros Hn. unfold Qeq_bool, Qnat. simpl.
  apply Z.eqb_neq. lia.
Qed.

Lemma py_div_ok (a : Q) (n : nat) :
  n <> O -> py_div a (Qnat n) = Ok (a / Qnat n).
Proof.
  intros Hn. unfold py_div. now rewrite Qnat_nonzero.
Qed.

Lemma accuracy_pct_ok (ps : list PredictionEntry) :
  ps <> [] ->
  accuracy_pct ps = Ok (Qnat (count is_correct ps) / Qnat (length ps) * 100).
Proof.
  intros Hps. unfold accuracy_pct.
  rewrite py_div_ok; [reflexivity|].
  destruct ps; [congruence | discriminate].
Qed.

Lemma unique_incl (xs : list string) (c : string) :
  In c (unique xs) -> In c xs.
Proof.
  induction xs as [|x xs IH]; simpl; [tauto|].
  intros [Hc | Hc]; [now left | right].
  apply filter_In in Hc. now apply IH.
Qed.

Lemma mapM_ok {A B : Type} (f : A -> result B) (xs : list A) :
  (forall x, In x xs -> exists y, f x = Ok y) ->
  exists ys, mapM f xs = Ok ys.
Proof.
  induction xs as [|x xs IH]; intros Hf; simpl.
  - now exists [].
  - destruct (Hf x (or_introl eq_refl)) as [y Hy].
    destruct IH as [ys Hys]; [intros; apply Hf; now right|].
    rewrite Hy, Hys. simpl. now exists (y :: ys).
Qed.

(** Every class taken from the label column has at least one row, so the
    per-class ratio has a non-zero divisor. *)
Lemma class_entry_ok (labeled : list PredictionEntry) (c : string) :
  In c (map label_of labeled) ->
  exists y, class_entry labeled c = Ok y.
Proof.
  intros Hc. apply in_map_iff in Hc as (p & Hp & Hin).
  unfold class_entry. rewrite accuracy_pct_ok.
  - simpl. eexists; reflexivity.
  - intros Hnil.
    assert (Hf : In p (filter (fun q => label_of q =? c) labeled)).
    { apply filter_In. split; [assumption|]. now apply String.eqb_eq. }
    rewrite Hnil in Hf. inversion Hf.
Qed.

(** [get_performance_metrics] returns on every log: none of its divisions
    has a zero divisor. *)
Lemma get_performance_metrics_returns (now upd : Time) (log : list PredictionEntry) :
  exists m, get_performance_metrics now upd log = Ok m.
Proof.
  unfold get_performance_metrics.
  destruct log as [|p0 log0]; [now exists EmptyMetrics|].
  remember (filter has_label (p0 :: log0)) as labeled eqn:El.
  destruct labeled as [|q labeled]; [now exists EmptyMetrics|].
  rewrite accuracy_pct_ok by discriminate. cbn [bind].
  destruct (mapM_ok (class_entry (q :: labeled))
                    (unique (map label_of (q :: labeled)))) as [cls Hcls].
  { intros c Hc. apply class_entry_ok. now apply unique_incl. }
  rewrite Hcls. cbn [bind].
  destruct (filter (is_recent now) (q :: labeled)) as [|r recent] eqn:Er.
  - cbn [bind]. eexists; reflexivity.
  - rewrite accuracy_pct_ok by discriminate. cbn [bind]. eexists; reflexivity.
Qed.

Lemma filter_none {A : Type} (f : A -> bool) (xs : list A) :
  (forall x, In x xs -> f x = false) -> filter f xs = [].
Proof.
  induction xs as [|x xs IH]; intros Hf; simpl; [reflexivity|].
  rewrite (Hf x (or_introl eq_refl)). apply IH. intros; apply Hf; now right.
Qed.

(** C7. [get_performance_metrics] on a log in which no entry carries a true
    label (the empty log included) returns the empty dictionary; being an
    [Ok] result, it has evaluated no division by zero. *)
Theorem get_performance_metrics_unlabeled_is_empty :
  forall (now upd : Time) (log : list PredictionEntry),
    (forall p, In p log -> has_label p = false) ->
    get_performance_metrics now upd log = Ok EmptyMetrics.
Proof.
  intros now upd log Hlog. unfold get_performance_metrics.
  destruct log as [|p0 log0]; [reflexivity|].
  now rewrite (filter_none has_label (p0 :: log0) Hlog).
Qed.

(** An unlabeled entry, as [log_prediction] builds it without a true label. *)
Lemma get_performance_metrics_unlabeled_is_empty_witness :
  get_performance_metrics 100%Z 101%Z
    [prediction_entry 5%Z "img.jpg" "cat" None (Some 0.9)] = Ok EmptyMetrics.
Proof.
  apply get_performance_metrics_unlabeled_is_empty.
  intros p [Hp | []]. subst p. reflexivity.
Defined.

(** What [check_model_drift] answers on a populated snapshot. *)
Lemma check_model_drift_on_snapshot (threshold : Q) (now upd : Time)
    (log : list PredictionEntry) (m : Snapshot) :
  get_performance_metrics now upd log = Ok (MetricsOf m) ->
  check_model_drift threshold now upd log =
    Ok (negb (Qeq_bool (recent_accuracy_24h m) 0)
        && Qgtb (overall_accuracy m - recent_accuracy_24h m) threshold).
Proof.
  intros Hm. unfold check_model_drift. rewrite Hm. cbn [bind].
  destruct (Qeq_bool (recent_accuracy_24h m) 0); [reflexivity|].
  now destruct (Qgtb _ threshold).
Qed.

(** With no labeled entry in the last 24 hours, [check_model_drift] answers
    [False] whatever the overall accuracy. *)
Lemma check_model_drift_no_recent_data (threshold : Q) (now upd : Time)
    (log : list PredictionEntry) :
  filter (is_recent now) (filter has_label log) = [] ->
  check_model_drift threshold now upd log = Ok false.
Proof.
  intros Hrecent. unfold check_model_drift.
  destruct (get_performance_metrics_returns now upd log) as [m Hm].
  rewrite Hm. cbn [bind]. destruct m as [|s]; [reflexivity|].
  assert (Hs : recent_accuracy_24h s = 0).
  { revert Hm. unfold get_performance_metrics.
    destruct log as [|p0 log0]; [discriminate|].
    destruct (filter has_label (p0 :: log0)) as [|q labeled]; [discriminate|].
    destruct (accuracy_pct (q :: labeled)); [|discriminate]. cbn [bind].
    destruct (mapM _ _); [|discriminate]. cbn [bind].
    rewrite Hrecent. cbn [bind]. intros [= <-]. reflexivity. }
  rewrite Hs. reflexivity.
Qed.

(** More generally, [check_model_drift] answers [False] whenever no labeled
    entry of the last 24 hours is correct, be the window empty or not. *)
Lemma check_model_drift_no_recent_correct (threshold : Q) (now upd : Time)
    (log : list PredictionEntry) :
  count is_correct (filter (is_recent now) (filter has_label log)) = O ->
  check_model_drift threshold now upd log = Ok false.
Proof.
  intros Hnone. unfold check_model_drift.
  destruct (get_performance_metrics_returns now upd log) as [m Hm].
  rewrite Hm. cbn [bind]. destruct m as [|s]; [reflexivity|].
  assert (Hs : Qeq_bool (recent_accuracy_24h s) 0 = true).
  { revert Hm. unfold get_performance_metrics.
    destruct log as [|p0 log0]; [discriminate|].
    destruct (filter has_label (p0 :: log0)) as [|q labeled]; [discriminate|].
    destruct (accuracy_pct (q :: labeled)); [|discriminate]. cbn [bind].
    destruct (mapM _ _); [|discriminate]. cbn [bind].
    destruct (filter (is_recent now) (q :: labeled)) as [|r recent].
    - cbn [bind]. intros [= <-]. reflexivity.
    - rewrite accuracy_pct_ok by discriminate. cbn [bind]. intros [= <-].
      cbn [recent_accuracy_24h]. rewrite Hnone. apply Qeq_eq_bool.
      unfold Qdiv, Qnat. simpl inject_Z. now rewrite !Qmult_0_l. }
  now rewrite Hs.
Qed.

(** C1. On [drifting_log] the recent window holds one labeled entry, the
    overall accuracy exceeds the recent one by 50 points, above the default
    threshold of 5, and [check_model_drift] still answers [False]: its guard
    tests the recent accuracy, not the recent count. *)
Theorem check_model_drift_misses_zero_recent_accuracy :
  exists m : Snapshot,
    get_performance_metrics (hours_24 + 10)%Z (hours_24 + 11)%Z drifting_log
      = Ok (MetricsOf m) /\
    recent_predictions_24h m = 1%nat /\
    overall_accuracy m - recent_accuracy_24h m == 50 /\
    Qgtb (overall_accuracy m - recent_accuracy_24h m) default_threshold = true /\
    check_model_drift default_threshold (hours_24 + 10)%Z (hours_24 + 11)%Z
      drifting_log = Ok false.
Proof.
  eexists. split; [vm_compute; reflexivity|].
  repeat split; vm_compute; reflexivity.
Qed.

(** C3. A call of [log_prediction] without a confidence appends its entry
    and saves the log, and then raises a [TypeError] to its caller. *)
Theorem log_prediction_without_confidence_raises :
  forall (now_entry now_saved : Time) (image predicted : string)
         (actual : option string) (st : State),
    let out := log_prediction now_entry now_saved image predicted actual None st in
    predictions_log (snd out) =
      predictions_log st ++ [prediction_entry now_entry image predicted actual None] /\
    fst out =
      Raise (TypeError "unsupported format string passed to NoneType.__format__").
Proof.
  intros. subst out. unfold log_prediction, _save_logs. simpl.
  destruct (writable st); simpl; split; reflexivity.
Qed.

(** With a confidence that a float can hold, [log_prediction] returns
    normally, having appended exactly one entry; when the log file can be
    opened for writing, the document on disk then holds the save time, the
    count and the whole list. *)
Lemma log_prediction_with_confidence (now_entry now_saved : Time)
    (image predicted : string) (actual : option string) (c : Q) (st : State) :
  fits_double c = true ->
  let out := log_prediction now_entry now_saved image predicted actual (Some c) st in
  let log' :=
    predictions_log st ++ [prediction_entry now_entry image predicted actual (Some c)] in
  fst out = Ok tt /\
  predictions_log (snd out) = log' /\
  (writable st = true ->
   log_file (snd out) =
     Some {| doc_last_updated := now_saved;
             doc_total_predictions := length log';
             doc_predictions := log' |}).
Proof.
  intros Hfit. unfold log_prediction, _save_logs, format_confidence.
  cbn [fst snd writable predictions_log]. rewrite Hfit.
  destruct (writable st); cbn [predictions_log log_file]; repeat split; congruence.
Qed.

End MonitorProperties.

(** * Properties of the deployment manager *)

Section DeployProperties.
Import Net Deploy Observe.

Lemma history_record (ev : Event) (w : World) :
  history (record ev w) = history w ++ [ev].
Proof. reflexivity. Qed.

(** A run of commands that returns [True] has executed all of them, in order. *)
Lemma run_commands_ok_history (commands : list string) :
  forall w w1,
    run_commands commands w = (true, w1) ->
    history w1 = history w ++ map Run commands.
Proof.
  induction commands as [|cmd rest IH]; intros w w1 Hrun; simpl in Hrun.
  - injection Hrun as <-. now rewrite app_nil_r.
  - destruct (shell w (history w) cmd); [|discriminate].
    apply IH in Hrun. rewrite Hrun, history_record, <- app_assoc. reflexivity.
Qed.

(** For every command list: when the commands before position [i] succeed
    and the command at [i] fails, the run stops there. *)
Lemma run_commands_stops_at_failure (pre : list string) (cmd : string)
    (post : list string) :
  forall w w1,
    run_commands pre w = (true, w1) ->
    fst (run_command cmd w1) = false ->
    run_commands (pre ++ cmd :: post) w = (false, snd (run_command cmd w1)).
Proof.
  induction pre as [|c pre IH]; intros w w1 Hpre Hcmd; simpl in *.
  - injection Hpre as <-. now rewrite Hcmd.
  - destruct (shell w (history w) c); [|discriminate].
    now apply IH.
Qed.


Lemma deploy_provisioning_failure (run_tests : bool) (dm : DeploymentManager)
    (commands : list string) (w w1 : World) :
  provisioning_commands dm = Some commands ->
  run_commands commands w = (false, w1) ->
  deploy run_tests dm w = (false, w1).
Proof.
  unfold provisioning_commands, deploy, deploy_docker_compose, deploy_kubernetes.
  intros Hplan Hrun.
  destruct (deployment_type dm =? "docker").
  - injection Hplan as <-. now rewrite Hrun.
  - destruct (deployment_type dm =? "k8s"); [|discriminate].
    injection Hplan as <-. now rewrite Hrun.
Qed.

(** C4. For both deployment types: when the commands before position [i]
    of the plan succeed and the command at position [i] fails, [deploy]
    returns [False] and has executed exactly the commands at positions
    [0..i], in the plan's order, and nothing else. *)
Theorem deploy_stops_at_first_failing_command :
  forall (run_tests : bool) (dm : DeploymentManager) (commands : list string)
         (i : nat) (cmd : string) (w w1 : World),
    provisioning_commands dm = Some commands ->
    nth_error commands i = Some cmd ->
    run_commands (firstn i commands) w = (true, w1) ->
    fst (run_command cmd w1) = false ->
    fst (deploy run_tests dm w) = false /\
    history (snd (deploy run_tests dm w)) =
      history w ++ map Run (firstn (S i) commands).
Proof.
  intros run_tests dm commands i cmd w w1 Hplan Hnth Hpre Hcmd.
  destruct (nth_error_split commands i Hnth) as (pre & post & Hsplit & Hlen).
  assert (Hfirst : firstn i commands = pre).
  { subst commands i. now rewrite firstn_app, firstn_all, Nat.sub_diag, app_nil_r. }
  assert (HfirstS : firstn (S i) commands = pre ++ [cmd]).
  { subst commands i.
    rewrite firstn_app, firstn_all2 by lia.
    replace (S (length pre) - length pre)%nat with 1%nat by lia. reflexivity. }
  rewrite Hfirst in Hpre.
  pose proof (run_commands_stops_at_failure pre cmd post w w1 Hpre Hcmd) as Hrun.
  rewrite <- Hsplit in Hrun.
  rewrite (deploy_provisioning_failure run_tests dm commands w _ Hplan Hrun).
  split; [reflexivity|].
  cbn [snd run_command]. rewrite history_record.
  rewrite (run_commands_ok_history pre w w1 Hpre), HfirstS, map_app, app_assoc.
  reflexivity.
Qed.

(** The compose plan when the image build, its second command, fails. *)
Lemma deploy_stops_at_first_failing_command_witness :
  fst (deploy true (new "docker") w_build_fails) = false /\
  history (snd (deploy true (new "docker") w_build_fails)) =
    history w_build_fails ++ map Run (firstn 2 docker_commands).
Proof.
  apply (deploy_stops_at_first_failing_command true (new "docker") docker_commands
           1 "docker-compose build --no-cache" w_build_fails
           (record (Run "docker-compose down") w_build_fails));
    reflexivity.
Defined.

Lemma polls_before_snoc (url : string) (w : World) (i : nat) :
  history (time_sleep 10 (record (Get url) w)) ++ polls_before url i =
  history w ++ polls_before url (S i).
Proof.
  unfold time_sleep. rewrite !history_record, <- !app_assoc. reflexivity.
Qed.

(** The wait succeeds exactly when one of its polls answers 200. *)
Lemma wait_loop_true_iff (n : nat) (dm : DeploymentManager) :
  forall w,
    fst (wait_loop n dm w) = true <->
    exists i, (i < n)%nat /\ poll_ready (nth_poll dm w i) = true.
Proof.
  induction n as [|n IH]; intros w; simpl.
  - split; [discriminate | intros (i & Hi & _); lia].
  - fold (health_url dm).
    destruct (poll_ready (http_get w (history w) (health_url dm))) eqn:Hready.
    + split; [|reflexivity]. intros _. exists O. split; [lia|].
      unfold nth_poll. simpl. now rewrite app_nil_r.
    + rewrite IH. unfold nth_poll. cbn [http_get time_sleep record].
      split.
      * intros (i & Hi & Hp). exists (S i). split; [lia|].
        now rewrite <- (polls_before_snoc (health_url dm) w i).
      * intros (i & Hi & Hp). destruct i as [|i].
        -- simpl in Hp. rewrite app_nil_r in Hp. congruence.
        -- exists i. split; [lia|].
           now rewrite (polls_before_snoc (health_url dm) w i).
Qed.

(** The wait issues at most [n] requests and runs no command. *)
Lemma wait_loop_events (n : nat) (dm : DeploymentManager) :
  forall w, exists evs,
    history (snd (wait_loop n dm w)) = history w ++ evs /\
    (gets evs <= n)%nat /\ commands_of evs = [].
Proof.
  induction n as [|n IH]; intros w; simpl.
  - exists []. rewrite app_nil_r. repeat split; auto.
  - destruct (poll_ready (http_get w (history w) (base_url dm ++ "/health")%string)).
    + exists [Get (base_url dm ++ "/health")%string]. repeat split.
      unfold gets, count. simpl. lia.
    + destruct (IH (time_sleep 10 (record (Get (base_url dm ++ "/health")%string) w)))
        as (evs & Hh & Hg & Hc).
      exists (Get (base_url dm ++ "/health")%string :: Sleep 10 :: evs).
      rewrite Hh. unfold time_sleep. rewrite !history_record, <- !app_assoc.
      repeat split.
      * unfold gets, count in *. simpl. lia.
      * exact Hc.
Qed.

(** C2. [wait_for_deployment(max_wait)] returns [True] iff one of its polls,
    numbered below [max_wait // 10], answers with status 200 (a poll that
    raises is not ready; the body is not read); it issues at most
    [max_wait // 10] requests, which is at most the ceiling of [max_wait / 10]
    for a non-negative [max_wait], and 30 for the default of 300. *)
Theorem wait_for_deployment_true_iff_some_poll_200 :
  forall (max_wait : Z) (dm : DeploymentManager) (w : World),
    (fst (wait_for_deployment max_wait dm w) = true <->
     exists i, (i < attempts max_wait)%nat /\ poll_ready (nth_poll dm w i) = true) /\
    (exists evs,
       history (snd (wait_for_deployment max_wait dm w)) = history w ++ evs /\
       (gets evs <= attempts max_wait)%nat) /\
    (0 <= max_wait -> Z.of_nat (attempts max_wait) <= (max_wait + 9) / 10)%Z /\
    attempts default_max_wait = 30%nat.
Proof.
  intros max_wait dm w. unfold wait_for_deployment. repeat split.
  - apply wait_loop_true_iff.
  - apply wait_loop_true_iff.
  - destruct (wait_loop_events (attempts max_wait) dm w) as (evs & Hh & Hg & _).
    now exists evs.
  - intros Hpos. unfold attempts.
    rewrite Z2Nat.id by (apply Z.div_pos; lia).
    apply Z.div_le_mono; lia.
Qed.

(** Against a service that answers 200 while reporting its model as not
    loaded, the wait succeeds although none of its polls is healthy in the
    specification's sense. *)
Lemma wait_for_deployment_accepts_unready_body :
  fst (wait_for_deployment default_max_wait (new "docker") w_starting) = true /\
  (forall i, spec_healthy (nth_poll (new "docker") w_starting i) = false).
Proof.
  split; [reflexivity|]. intros i. reflexivity.
Qed.

End DeployProperties.

(** * Properties of the smoke tests *)

Section SmokeProperties.
Import Net Smoke Observe.

Lemma quiet_refl (w : World) : quiet w w.
Proof. exists []. now rewrite app_nil_r. Qed.

Lemma quiet_trans (w1 w2 w3 : World) : quiet w1 w2 -> quiet w2 w3 -> quiet w1 w3.
Proof.
  intros (e1 & H1 & C1) (e2 & H2 & C2). exists (e1 ++ e2).
  rewrite H2, H1, <- app_assoc. split; [reflexivity|].
  unfold commands_of in *. now rewrite flat_map_app, C1, C2.
Qed.

Lemma quiet_get (url : string) (w : World) : quiet w (record (Get url) w).
Proof. now exists [Get url]. Qed.

Lemma quiet_post (url file : string) (w : World) : quiet w (record (Post url file) w).
Proof. now exists [Post url file]. Qed.

Lemma quiet_sleep (n : Z) (w : World) : quiet w (time_sleep n w).
Proof. now exists [Sleep n]. Qed.

Ltac break_matches :=
  repeat match goal with
         | |- context [match ?x with _ => _ end] => destruct x
         end.

Lemma test_health_endpoint_world (t : SmokeTest) (w : World) :
  snd (test_health_endpoint t w) = record (Get (base_url t ++ "/health")%string) w.
Proof. unfold test_health_endpoint, requests_get. break_matches; reflexivity. Qed.

Lemma test_metrics_endpoint_world (t : SmokeTest) (w : World) :
  snd (test_metrics_endpoint t w) = record (Get (base_url t ++ "/metrics")%string) w.
Proof. unfold test_metrics_endpoint, requests_get. break_matches; reflexivity. Qed.

Lemma test_prediction_endpoint_quiet (t : SmokeTest) (w : World) :
  quiet w (snd (test_prediction_endpoint t w)).
Proof.
  unfold test_prediction_endpoint, requests_post.
  break_matches; cbn [snd]; auto using quiet_refl, quiet_post.
Qed.

Lemma monitoring_loop_quiet (services : list (string * string)) :
  forall all_pass t w, quiet w (snd (monitoring_loop services all_pass t w)).
Proof.
  induction services as [|[name url] rest IH]; intros all_pass t w; simpl.
  - apply quiet_refl.
  - destruct (service_result name (http_get w (history w) url)) as [r ok].
    eapply quiet_trans; [apply quiet_get | apply IH].
Qed.

(** The smoke tests run no command. *)
Lemma run_all_tests_quiet (t : SmokeTest) (w : World) :
  quiet w (snd (run_all_tests t w)).
Proof.
  unfold run_all_tests.
  pose proof (test_health_endpoint_world t (time_sleep 10 w)) as H1.
  destruct (test_health_endpoint t (time_sleep 10 w)) as [[b1 t1] w1].
  pose proof (test_prediction_endpoint_quiet t1 w1) as H2.
  destruct (test_prediction_endpoint t1 w1) as [[b2 t2] w2].
  pose proof (test_metrics_endpoint_world t2 w2) as H3.
  destruct (test_metrics_endpoint t2 w2) as [[b3 t3] w3].
  pose proof (monitoring_loop_quiet monitoring_services true t3 w3) as H4.
  unfold test_monitoring_services.
  destruct (monitoring_loop monitoring_services true t3 w3) as [[b4 t4] w4].
  cbn [snd] in *. subst w1 w3.
  eapply quiet_trans; [apply quiet_sleep|].
  eapply quiet_trans; [apply quiet_get|].
  eapply quiet_trans; [exact H2|].
  eapply quiet_trans; [apply quiet_get|exact H4].
Qed.

Lemma failed_counts_fail (rs : list TestResult) :
  failed rs = count (fun r => status_of r =? "FAIL") rs.
Proof.
  unfold failed, count. f_equal. apply filter_ext. intros r.
  destruct (status_of r =? "FAIL") eqn:Hf; [|now rewrite andb_false_r].
  apply String.eqb_eq in Hf. now rewrite Hf.
Qed.

(** C9. [test_monitoring_services] appends one result per service, in the
    order Grafana, Prometheus, MLflow: PASS on status 200 and FAIL on any
    other status; when the request raises, SKIP for MLflow and FAIL for the
    other two. *)
Theorem test_monitoring_services_statuses :
  forall (t : SmokeTest) (w : World),
    let grafana := "http://localhost:3000" in
    let prometheus := "http://localhost:9090" in
    let mlflow := "http://localhost:5000" in
    let r1 := http_get w (history w) grafana in
    let r2 := http_get w (history w ++ [Get grafana]) prometheus in
    let r3 := http_get w ((history w ++ [Get grafana]) ++ [Get prometheus]) mlflow in
    map name_status (test_results (snd (fst (test_monitoring_services t w)))) =
      map name_status (test_results t) ++
      [ ("Grafana", spec_service_status false r1);
        ("Prometheus", spec_service_status false r2);
        ("MLflow", spec_service_status true r3) ].
Proof.
  intros t w grafana prometheus mlflow r1 r2 r3.
  unfold test_monitoring_services, monitoring_services.
  cbn [monitoring_loop requests_get record history http_get].
  fold grafana prometheus mlflow. fold r1. 
  destruct r1 as [a1|e1]; cbn [service_result spec_service_status];
    [destruct (status_code a1 =? 200)%Z|];
    cbn [String.eqb Ascii.eqb Bool.eqb]; fold r2;
    (destruct r2 as [a2|e2]; cbn [service_result spec_service_status];
     [destruct (status_code a2 =? 200)%Z|];
     cbn [String.eqb Ascii.eqb Bool.eqb]; fold r3;
     (destruct r3 as [a3|e3]; cbn [service_result spec_service_status];
      [destruct (status_code a3 =? 200)%Z|];
      cbn [String.eqb Ascii.eqb Bool.eqb];
      cbn [fst snd append test_results]; rewrite !map_app, <- !app_assoc; reflexivity)).
Qed.

End SmokeProperties.

(** * Deployment and rollback *)

Section RollbackProperties.
Import Net Deploy Observe.


Lemma wait_for_deployment_quiet (max_wait : Z) (dm : DeploymentManager) (w : World) :
  quiet w (snd (wait_for_deployment max_wait dm w)).
Proof.
  destruct (wait_loop_events (attempts max_wait) dm w) as (evs & Hh & _ & Hc).
  now exists evs.
Qed.

Lemma run_smoke_tests_quiet (dm : DeploymentManager) (w : World) :
  quiet w (snd (run_smoke_tests dm w)).
Proof.
  unfold run_smoke_tests.
  pose proof (run_all_tests_quiet (Smoke.new (base_url dm)) w) as H.
  destruct (Smoke.run_all_tests (Smoke.new (base_url dm)) w) as [[ok t] w1].
  exact H.
Qed.

(** After its commands, [deploy] runs no further command. *)
Lemma deploy_quiet_after_commands (run_tests : bool) (dm : DeploymentManager)
    (w : World) :
  quiet (snd (run_commands (plan dm) w)) (snd (deploy run_tests dm w)).
Proof.
  assert (Hrest : forall w1 : World,
    quiet w1 (snd (let '(ready, w2) := wait_for_deployment default_max_wait dm w1 in
                   if ready then
                     if run_tests then
                       let '(tested, w3) := run_smoke_tests dm w2 in
                       if tested then (true, w3) else (false, w3)
                     else (true, w2)
                   else (false, w2)))).
  { intros w1.
    pose proof (wait_for_deployment_quiet default_max_wait dm w1) as Hw.
    destruct (wait_for_deployment default_max_wait dm w1) as [ready w2].
    cbn [snd] in Hw. destruct ready; [|exact Hw].
    destruct run_tests; [|exact Hw].
    pose proof (run_smoke_tests_quiet dm w2) as Hs.
    destruct (run_smoke_tests dm w2) as [tested w3]. cbn [snd] in Hs.
    destruct tested; cbn [snd]; eapply quiet_trans; eassumption. }
  unfold deploy, plan, provisioning_commands, deploy_docker_compose, deploy_kubernetes.
  destruct (deployment_type dm =? "docker").
  - destruct (run_commands docker_commands w) as [ok w1].
    destruct ok; [apply Hrest | apply quiet_refl].
  - destruct (deployment_type dm =? "k8s").
    + destruct (run_commands k8s_commands w) as [ok w1].
      destruct ok; [apply Hrest | apply quiet_refl].
    + apply quiet_refl.
Qed.




End RollbackProperties.

(** * Properties of the post-deployment evaluator *)

Section EvalProperties.
Import Net Eval Observe.

(** The length check at the head of [evaluate_performance]. *)
Lemma evaluate_performance_mismatch (now : Z) (predictions : list Prediction)
    (true_labels : list string) :
  length predictions <> length true_labels ->
  evaluate_performance now predictions true_labels = Raise mismatch.
Proof.
  intros Hlen. unfold evaluate_performance.
  apply Nat.eqb_neq in Hlen. now rewrite Hlen.
Qed.

(** [predict_batch] does not touch the output file. *)
Lemma predict_batch_keeps_output (ev : PostDeploymentEvaluator)
    (image_paths : list string) :
  forall w, output_file (snd (predict_batch ev image_paths w)) = output_file w.
Proof.
  induction image_paths as [|img rest IH]; intros w; simpl; [reflexivity|].
  destruct (can_open w img); [|apply IH].
  specialize (IH (with_net (record (Post (api_url ev ++ "/predict")%string img) (net w)) w)).
  destruct (predict_batch ev rest _) as [ps w2]. exact IH.
Qed.

(** Paths and labels are loaded in pairs. *)
Lemma load_test_data_lengths (w : World) :
  length (fst (load_test_data w)) = length (snd (load_test_data w)).
Proof. unfold load_test_data. simpl. now rewrite !length_map. Qed.

(** C6. When [predict_batch] returns a number of predictions different
    from the number of loaded labels, [evaluate_performance] raises the
    length-mismatch [ValueError]; [run_evaluation] ends with that exception,
    returns no results and leaves the output file as it was. *)
Theorem run_evaluation_mismatch_raises :
  forall (now : Z) (save_to_file : bool) (ev : PostDeploymentEvaluator) (w : World),
    length (fst (predict_batch ev (fst (load_test_data w)) w))
      <> length (snd (load_test_data w)) ->
    evaluate_performance now (fst (predict_batch ev (fst (load_test_data w)) w))
      (snd (load_test_data w)) = Raise mismatch /\
    fst (run_evaluation now save_to_file ev w) = Raise mismatch /\
    output_file (snd (run_evaluation now save_to_file ev w)) = output_file w.
Proof.
  intros now save_to_file ev w Hlen.
  split; [now apply evaluate_performance_mismatch|].
  unfold run_evaluation.
  pose proof (load_test_data_lengths w) as Hpairs.
  destruct (load_test_data w) as [image_paths true_labels]. cbn [fst snd] in *.
  destruct image_paths as [|img rest].
  - exfalso. apply Hlen. simpl in *. exact Hpairs.
  - pose proof (predict_batch_keeps_output ev (img :: rest) w) as Hout.
    destruct (predict_batch ev (img :: rest) w) as [predictions w1].
    cbn [fst snd] in *.
    rewrite (evaluate_performance_mismatch now predictions true_labels Hlen).
    split; [reflexivity | exact Hout].
Qed.

(** One prediction for two labels: the request for the dog image is
    answered with status 500. *)
Lemma run_evaluation_mismatch_raises_witness :
  evaluate_performance 0
    (fst (predict_batch {| api_url := "http://localhost:8000" |}
            (fst (load_test_data w_dog_refused)) w_dog_refused))
    (snd (load_test_data w_dog_refused)) = Raise mismatch /\
  fst (run_evaluation 0 true {| api_url := "http://localhost:8000" |} w_dog_refused)
    = Raise mismatch /\
  output_file
    (snd (run_evaluation 0 true {| api_url := "http://localhost:8000" |} w_dog_refused))
    = output_file w_dog_refused.
Proof.
  apply (run_evaluation_mismatch_raises 0 true
           {| api_url := "http://localhost:8000" |} w_dog_refused).
  vm_compute. discriminate.
Defined.

End EvalProperties.

(** * The worked example of the specification *)

Section WorkedExample.
Import Observe.

(** C10. For the labeled predictions (cat, cat, 0.9), (dog, cat, 0.8),
    (dog, dog, 0.7), whatever their timestamps: the monitor's snapshot,
    which reports accuracies in percent, has an overall accuracy of 2/3 and
    class accuracies of 1/2 for cat and 1/1 for dog, keyed by true label;
    the evaluator's summary has the same three ratios. *)
Theorem example_accuracies :
  forall (t1 t2 t3 now upd eval_time : Z),
    (exists m : Monitor.Snapshot,
       Monitor.get_performance_metrics now upd (example_log t1 t2 t3)
         = Ok (Monitor.MetricsOf m) /\
       Monitor.overall_accuracy m / 100 == 2 # 3 /\
       exists cat_pct dog_pct : Q,
         Monitor.class_accuracy m = [("cat", cat_pct); ("dog", dog_pct)] /\
         cat_pct / 100 == 1 # 2 /\ dog_pct / 100 == 1 # 1) /\
    (exists s : Eval.Summary,
       Eval.evaluate_performance eval_time example_predictions example_labels = Ok s /\
       Eval.overall_accuracy s == 2 # 3 /\
       Eval.cat_accuracy s == 1 # 2 /\
       Eval.dog_accuracy s == 1 # 1).
Proof.
  intros t1 t2 t3 now upd eval_time. split.
  - unfold Monitor.get_performance_metrics, example_log.
    cbn [filter Monitor.has_label Monitor.truthy Monitor.actual_class
         Monitor.prediction_entry String.eqb Ascii.eqb Bool.eqb negb].
    unfold Monitor.is_recent. cbn [Monitor.timestamp Monitor.prediction_entry].
    destruct (now - Monitor.hours_24 <? t1)%Z, (now - Monitor.hours_24 <? t2)%Z,
             (now - Monitor.hours_24 <? t3)%Z;
      (eexists; split; [vm_compute; reflexivity|]; split; [vm_compute; reflexivity|];
       do 2 eexists; split; [vm_compute; reflexivity|]; split; vm_compute; reflexivity).
  - eexists. split; [vm_compute; reflexivity|].
    repeat split; vm_compute; reflexivity.
Qed.

End WorkedExample.

(** * Further properties of the performance monitor *)

Section MonitorMore.
Import Monitor MonitorRun Cases.



(** X2. When the log file cannot be opened for writing, [log_prediction]
    gives its caller no sign of it: the call ends exactly as it does on a
    writable file (same return, same exception) and the log in memory
    grows, while the file keeps its old content, so that a monitor created
    afterwards does not see the entry. *)
Theorem unsaved_prediction_is_silently_lost :
  forall (now_entry now_saved : Time) (image predicted : string)
         (actual : option string) (conf : option Q) (st : State),
    writable st = false ->
    let out := log_prediction now_entry now_saved image predicted actual conf st in
    let on_writable :=
      log_prediction now_entry now_saved image predicted actual conf
        {| predictions_log := predictions_log st; log_file := log_file st;
           writable := true |} in
    fst out = fst on_writable /\
    predictions_log (snd out) =
      predictions_log st ++ [prediction_entry now_entry image predicted actual conf] /\
    log_file (snd out) = log_file st /\
    predictions_log (reopen (snd out)) = predictions_log (reopen st).
Proof.
  intros now_entry now_saved image predicted actual conf st Hw.
  unfold log_prediction, _save_logs, reopen. cbn [fst snd writable].
  rewrite Hw. repeat split; reflexivity.
Qed.

Lemma unsaved_prediction_is_silently_lost_witness :
  let out := log_prediction 1%Z 2%Z "a.jpg" "cat" (Some "cat") (Some 0.9)
               readonly_monitor in
  let on_writable :=
    log_prediction 1%Z 2%Z "a.jpg" "cat" (Some "cat") (Some 0.9)
      {| predictions_log := predictions_log readonly_monitor;
         log_file := log_file readonly_monitor; writable := true |} in
  fst out = fst on_writable /\
  predictions_log (snd out) =
    predictions_log readonly_monitor
      ++ [prediction_entry 1%Z "a.jpg" "cat" (Some "cat") (Some 0.9)] /\
  log_file (snd out) = log_file readonly_monitor /\
  predictions_log (reopen (snd out)) = predictions_log (reopen readonly_monitor).
Proof.
  apply (unsaved_prediction_is_silently_lost 1%Z 2%Z "a.jpg" "cat" (Some "cat")
           (Some 0.9) readonly_monitor).
  reflexivity.
Defined.

Lemma filter_idempotent {A : Type} (f : A -> bool) (xs : list A) :
  filter f (filter f xs) = filter f xs.
Proof.
  induction xs as [|x xs IH]; simpl; [reflexivity|].
  destruct (f x) eqn:Hx; simpl; [rewrite Hx, IH|]; auto.
Qed.

(** X3. Entries without a true label never influence the metrics: the
    snapshot of a log is the snapshot of its labeled entries. *)
Theorem get_performance_metrics_ignores_unlabeled :
  forall (now upd : Time) (log : list PredictionEntry),
    get_performance_metrics now upd log =
    get_performance_metrics now upd (filter has_label log).
Proof.
  intros now upd log. unfold get_performance_metrics.
  destruct log as [|p0 log0]; [reflexivity|].
  rewrite filter_idempotent.
  destruct (filter has_label (p0 :: log0)); reflexivity.
Qed.

Lemma count_le_length {A : Type} (f : A -> bool) (xs : list A) :
  (count f xs <= length xs)%nat.
Proof. unfold count. apply filter_length_le. Qed.

(** A percentage of a part in a whole lies between 0 and 100. *)
Lemma percentage_bounds (c n : nat) :
  (c <= n)%nat -> n <> O ->
  0 <= Qnat c / Qnat n * 100 /\ Qnat c / Qnat n * 100 <= 100.
Proof.
  intros Hc Hn. destruct n as [|n]; [congruence|].
  unfold Qle, Qdiv, Qmult, Qinv, Qnat. simpl. lia.
Qed.

Lemma accuracy_pct_bounds (ps : list PredictionEntry) (a : Q) :
  accuracy_pct ps = Ok a -> ps <> [] /\ 0 <= a /\ a <= 100.
Proof.
  intros Ha. destruct ps as [|p ps]; [discriminate Ha|].
  split; [discriminate|].
  rewrite accuracy_pct_ok in Ha by discriminate. injection Ha as <-.
  apply (percentage_bounds (count is_correct (p :: ps)) (length (p :: ps)));
    [apply count_le_length | discriminate].
Qed.

(** X4. A populated snapshot is well-formed: both accuracies lie between 0
    and 100, the total is the positive number of labeled entries, and the
    recent window holds no more entries than the total. *)
Theorem snapshot_bounds :
  forall (now upd : Time) (log : list PredictionEntry) (m : Snapshot),
    get_performance_metrics now upd log = Ok (MetricsOf m) ->
    (0 <= overall_accuracy m /\ overall_accuracy m <= 100) /\
    (0 <= recent_accuracy_24h m /\ recent_accuracy_24h m <= 100) /\
    total_predictions m = count has_label log /\
    (0 < total_predictions m)%nat /\
    (recent_predictions_24h m <= total_predictions m)%nat.
Proof.
  intros now upd log m. unfold get_performance_metrics.
  destruct log as [|p0 log0]; [discriminate|].
  unfold count.
  destruct (filter has_label (p0 :: log0)) as [|q labeled] eqn:El; [discriminate|].
  destruct (accuracy_pct (q :: labeled)) as [a|] eqn:Ha; [|discriminate]. cbn [bind].
  destruct (mapM _ _); [|discriminate]. cbn [bind].
  pose proof (filter_length_le (is_recent now) (q :: labeled)) as Hrecent.
  destruct (accuracy_pct_bounds _ _ Ha) as (_ & Ha0 & Ha1).
  destruct (filter (is_recent now) (q :: labeled)) as [|r recent] eqn:Er.
  - cbn [bind]. intros [= <-]. cbn.
    repeat split; try assumption; try discriminate; lia.
  - destruct (accuracy_pct (r :: recent)) as [b|] eqn:Hb; [|discriminate].
    cbn [bind]. intros [= <-]. cbn.
    destruct (accuracy_pct_bounds _ _ Hb) as (_ & Hb0 & Hb1).
    repeat split; try assumption; cbn in Hrecent; lia.
Qed.

Lemma snapshot_bounds_witness :
  exists m,
    get_performance_metrics (hours_24 + 10)%Z 0%Z improving_log = Ok (MetricsOf m) /\
    ((0 <= overall_accuracy m /\ overall_accuracy m <= 100) /\
     (0 <= recent_accuracy_24h m /\ recent_accuracy_24h m <= 100) /\
     total_predictions m = count has_label improving_log /\
     (0 < total_predictions m)%nat /\
     (recent_predictions_24h m <= total_predictions m)%nat).
Proof.
  eexists. split; [vm_compute; reflexivity|].
  apply (snapshot_bounds (hours_24 + 10)%Z 0%Z improving_log).
  vm_compute. reflexivity.
Defined.

End MonitorMore.

From Stdlib Require Import Permutation.

Section MonitorTables.
Import Monitor MonitorRun Cases.

Lemma unique_complete (xs : list string) (c : string) :
  In c xs -> In c (unique xs).
Proof.
  induction xs as [|x xs IH]; simpl; [tauto|].
  intros [Hc | Hc]; [now left|].
  destruct (String.eqb_spec c x) as [Heq | Hne]; [left; congruence | right].
  apply filter_In. split; [now apply IH|].
  apply negb_true_iff. now apply String.eqb_neq.
Qed.

Lemma unique_NoDup (xs : list string) : NoDup (unique xs).
Proof.
  induction xs as [|x xs IH]; simpl; constructor.
  - intros Hin. apply filter_In in Hin as [_ Hx].
    now rewrite String.eqb_refl in Hx.
  - now apply NoDup_filter.
Qed.

Lemma mapM_class_entry (labeled : list PredictionEntry) (cs : list string) :
  forall rows,
    mapM (class_entry labeled) cs = Ok rows ->
    map fst rows = cs /\
    Forall (fun row => 0 <= snd row /\ snd row <= 100) rows.
Proof.
  induction cs as [|c cs IH]; intros rows Hrows; simpl in Hrows.
  - injection Hrows as <-. split; constructor.
  - unfold class_entry at 1 in Hrows.
    destruct (accuracy_pct (filter (fun p => label_of p =? c) labeled)) as [a|] eqn:Ha;
      [|discriminate]. cbn [bind] in Hrows.
    destruct (mapM (class_entry labeled) cs) as [rest|]; [|discriminate].
    cbn [bind] in Hrows. injection Hrows as <-.
    destruct (IH rest eq_refl) as [Hk Hb].
    destruct (accuracy_pct_bounds _ _ Ha) as (_ & Ha0 & Ha1).
    split; [simpl; now rewrite Hk|]. constructor; [now split | exact Hb].
Qed.

(** X5. The class table of a populated snapshot has exactly one row for
    each true label that occurs among the labeled entries, in order of first
    occurrence, and every class accuracy lies between 0 and 100. *)
Theorem class_accuracy_rows :
  forall (now upd : Time) (log : list PredictionEntry) (m : Snapshot),
    get_performance_metrics now upd log = Ok (MetricsOf m) ->
    map fst (class_accuracy m) = unique (map label_of (filter has_label log)) /\
    NoDup (map fst (class_accuracy m)) /\
    (forall c, In c (map fst (class_accuracy m)) <->
               exists p, In p log /\ has_label p = true /\ actual_class p = Some c) /\
    Forall (fun row => 0 <= snd row /\ snd row <= 100) (class_accuracy m).
Proof.
  intros now upd log m. unfold get_performance_metrics.
  destruct log as [|p0 log0]; [discriminate|].
  destruct (filter has_label (p0 :: log0)) as [|q labeled] eqn:El; [discriminate|].
  destruct (accuracy_pct (q :: labeled)); [|discriminate]. cbn [bind].
  destruct (mapM _ _) as [rows|] eqn:Hrows; [|discriminate]. cbn [bind].
  destruct (mapM_class_entry _ _ _ Hrows) as [Hkeys Hbounds].
  assert (Hshape : forall s, Ok (MetricsOf s) = Ok (MetricsOf m) -> class_accuracy m = class_accuracy s).
  { intros s [= <-]. reflexivity. }
  intros Hm.
  assert (Hrowsm : class_accuracy m = rows).
  { destruct (filter (is_recent now) (q :: labeled)).
    - cbn [bind] in Hm. now rewrite (Hshape _ Hm).
    - destruct (accuracy_pct (p :: l)); [|discriminate Hm].
      cbn [bind] in Hm. now rewrite (Hshape _ Hm). }
  rewrite Hrowsm, Hkeys. repeat split.
  - apply unique_NoDup.
  - intros Hc. apply unique_incl in Hc. apply in_map_iff in Hc as (p & Hp & Hin).
    rewrite <- El in Hin. apply filter_In in Hin as [Hin Hl].
    exists p. repeat split; try assumption.
    unfold label_of in Hp. unfold has_label, truthy in Hl.
    destruct (actual_class p); [congruence | discriminate].
  - intros (p & Hin & Hl & Hc). apply unique_complete. apply in_map_iff.
    exists p. split; [unfold label_of; now rewrite Hc|].
    rewrite <- El. apply filter_In. now split.
  - exact Hbounds.
Qed.

Lemma class_accuracy_rows_witness :
  exists m,
    get_performance_metrics (hours_24 + 10)%Z 0%Z improving_log = Ok (MetricsOf m) /\
    (map fst (class_accuracy m) = unique (map label_of (filter has_label improving_log)) /\
     NoDup (map fst (class_accuracy m)) /\
     (forall c, In c (map fst (class_accuracy m)) <->
                exists p, In p improving_log /\ has_label p = true /\
                          actual_class p = Some c) /\
     Forall (fun row => 0 <= snd row /\ snd row <= 100) (class_accuracy m)).
Proof.
  eexists. split; [vm_compute; reflexivity|].
  apply (class_accuracy_rows (hours_24 + 10)%Z 0%Z improving_log).
  vm_compute. reflexivity.
Defined.

(** X6. Neither [get_performance_metrics] nor [check_model_drift] ever
    raises a [ZeroDivisionError], whatever the log holds: every division
    they reach has a non-zero divisor. *)
Theorem monitor_queries_never_divide_by_zero :
  forall (threshold : Q) (now upd : Time) (log : list PredictionEntry),
    get_performance_metrics now upd log <> Raise ZeroDivisionError /\
    check_model_drift threshold now upd log <> Raise ZeroDivisionError.
Proof.
  intros threshold now upd log.
  destruct (get_performance_metrics_returns now upd log) as [m Hm].
  split; [rewrite Hm; discriminate|].
  unfold check_model_drift. rewrite Hm. cbn [bind].
  destruct m as [|s]; [discriminate|].
  destruct (Qeq_bool (recent_accuracy_24h s) 0); [discriminate|].
  destruct (Qgtb _ threshold); discriminate.
Qed.

(** X7. [check_model_drift] with a non-negative threshold never flags a
    recent window that is at least as accurate as the whole log. *)
Theorem check_model_drift_ignores_improvement :
  forall (threshold : Q) (now upd : Time) (log : list PredictionEntry) (m : Snapshot),
    get_performance_metrics now upd log = Ok (MetricsOf m) ->
    overall_accuracy m <= recent_accuracy_24h m ->
    0 <= threshold ->
    check_model_drift threshold now upd log = Ok false.
Proof.
  intros threshold now upd log m Hm Himp Hth.
  rewrite (check_model_drift_on_snapshot threshold now upd log m Hm).
  assert (Hle : Qle_bool (overall_accuracy m - recent_accuracy_24h m) threshold = true).
  { apply Qle_bool_iff. apply Qle_trans with 0; [|exact Hth].
    apply (Qplus_le_l _ _ (recent_accuracy_24h m)). ring_simplify. exact Himp. }
  unfold Qgtb. rewrite Hle. now rewrite andb_false_r.
Qed.

Lemma check_model_drift_ignores_improvement_witness :
  check_model_drift default_threshold (hours_24 + 10)%Z 0%Z improving_log = Ok false.
Proof.
  eapply (check_model_drift_ignores_improvement default_threshold (hours_24 + 10)%Z 0%Z
            improving_log).
  - vm_compute. reflexivity.
  - vm_compute. discriminate.
  - vm_compute. discriminate.
Defined.

End MonitorTables.

Section MonitorOrder.
Import Monitor.

Lemma filter_permutation {A : Type} (f : A -> bool) (xs ys : list A) :
  Permutation xs ys -> Permutation (filter f xs) (filter f ys).
Proof.
  induction 1 as [|x xs ys _ IH|x y xs|xs ys zs _ IH1 _ IH2]; simpl.
  - constructor.
  - destruct (f x); [now constructor | exact IH].
  - destruct (f x), (f y); try apply Permutation_refl. apply perm_swap.
  - now apply Permutation_trans with (filter f ys).
Qed.

Lemma accuracy_pct_permutation (ps qs : list PredictionEntry) :
  Permutation ps qs -> accuracy_pct ps = accuracy_pct qs.
Proof.
  intros Hp. unfold accuracy_pct, count.
  rewrite (Permutation_length Hp).
  now rewrite (Permutation_length (filter_permutation is_correct ps qs Hp)).
Qed.

(** The fields of a populated snapshot in terms of the labeled entries. *)
Lemma snapshot_fields (now upd : Time) (log : list PredictionEntry) (m : Snapshot) :
  get_performance_metrics now upd log = Ok (MetricsOf m) ->
  filter has_label log <> [] /\
  accuracy_pct (filter has_label log) = Ok (overall_accuracy m) /\
  total_predictions m = length (filter has_label log) /\
  recent_predictions_24h m = length (filter (is_recent now) (filter has_label log)) /\
  match filter (is_recent now) (filter has_label log) with
  | [] => Ok (recent_accuracy_24h m) = Ok 0
  | _ => accuracy_pct (filter (is_recent now) (filter has_label log))
         = Ok (recent_accuracy_24h m)
  end.
Proof.
  unfold get_performance_metrics.
  destruct log as [|p0 log0]; [discriminate|].
  remember (filter has_label (p0 :: log0)) as labeled eqn:El.
  destruct labeled as [|q labeled]; [discriminate|].
  destruct (accuracy_pct (q :: labeled)) as [a|]; [|discriminate]. cbn [bind].
  destruct (mapM _ _); [|discriminate]. cbn [bind].
  remember (filter (is_recent now) (q :: labeled)) as recent eqn:Er.
  destruct recent as [|r recent].
  - cbn [bind]. intros [= <-].
    cbn [overall_accuracy total_predictions recent_accuracy_24h recent_predictions_24h].
    repeat split; try reflexivity. discriminate.
  - destruct (accuracy_pct (r :: recent)) as [b|]; [|discriminate].
    cbn [bind]. intros [= <-].
    cbn [overall_accuracy total_predictions recent_accuracy_24h recent_predictions_24h].
    repeat split; try reflexivity. discriminate.
Qed.

(** X8. The accuracies and counts of a snapshot do not depend on the order
    of the log: a reordered log gives a populated snapshot with the same
    overall and recent accuracy and the same two counts. *)
Theorem metrics_order_independent :
  forall (now upd : Time) (log log' : list PredictionEntry) (m : Snapshot),
    Permutation log log' ->
    get_performance_metrics now upd log = Ok (MetricsOf m) ->
    exists m',
      get_performance_metrics now upd log' = Ok (MetricsOf m') /\
      overall_accuracy m' = overall_accuracy m /\
      total_predictions m' = total_predictions m /\
      recent_accuracy_24h m' = recent_accuracy_24h m /\
      recent_predictions_24h m' = recent_predictions_24h m.
Proof.
  intros now upd log log' m Hp Hm.
  pose proof (filter_permutation has_label log log' Hp) as Hl.
  pose proof (filter_permutation (is_recent now) _ _ Hl) as Hr.
  destruct (snapshot_fields now upd log m Hm) as (Hne & Hacc & Htot & Hrc & Hra).
  destruct (get_performance_metrics_returns now upd log') as [[|m'] Hm'].
  - exfalso. revert Hm'. unfold get_performance_metrics.
    destruct log' as [|p0 log0].
    + apply Permutation_sym, Permutation_nil in Hp. subst log. exfalso. exact (Hne eq_refl).
    + destruct (filter has_label (p0 :: log0)) as [|q labeled] eqn:El.
      * try rewrite El in Hl. apply Permutation_sym, Permutation_nil in Hl.
        exfalso. exact (Hne Hl).
      * destruct (accuracy_pct (q :: labeled)); [|discriminate]. cbn [bind].
        destruct (mapM _ _); [|discriminate]. cbn [bind].
        destruct (filter (is_recent now) (q :: labeled)); cbn [bind];
          [discriminate|].
        destruct (accuracy_pct _); discriminate.
  - exists m'. split; [exact Hm'|].
    destruct (snapshot_fields now upd log' m' Hm') as (_ & Hacc' & Htot' & Hrc' & Hra').
    rewrite <- (accuracy_pct_permutation _ _ Hl) in Hacc'.
    rewrite Htot', Hrc', Htot, Hrc.
    rewrite <- (Permutation_length Hl), <- (Permutation_length Hr).
    split; [congruence|]. split; [reflexivity|]. split; [|reflexivity].
    destruct (filter (is_recent now) (filter has_label log)) as [|r recent] eqn:Er.
    + apply Permutation_nil in Hr. rewrite Hr in Hra'. congruence.
    + destruct (filter (is_recent now) (filter has_label log')) as [|r' recent'] eqn:Er'.
      * apply Permutation_sym, Permutation_nil in Hr. discriminate Hr.
      * rewrite <- (accuracy_pct_permutation _ _ Hr) in Hra'. congruence.
Qed.

Lemma metrics_order_independent_witness :
  exists m m',
    get_performance_metrics 10%Z 0%Z (Observe.example_log 1 2 3) = Ok (MetricsOf m) /\
    get_performance_metrics 10%Z 0%Z (rev (Observe.example_log 1 2 3)) = Ok (MetricsOf m') /\
    overall_accuracy m' = overall_accuracy m /\
    total_predictions m' = total_predictions m /\
    recent_accuracy_24h m' = recent_accuracy_24h m /\
    recent_predictions_24h m' = recent_predictions_24h m.
Proof.
  eexists.
  destruct (metrics_order_independent 10%Z 0%Z (Observe.example_log 1 2 3)
              (rev (Observe.example_log 1 2 3))
              {| overall_accuracy := 200 # 3; total_predictions := 3;
                 recent_accuracy_24h := 200 # 3; recent_predictions_24h := 3;
                 average_confidence := Some (2400 # 3000);
                 confidence_min := Some 0.7; confidence_max := Some 0.9;
                 class_accuracy := [("cat", 100 # 2); ("dog", 100)];
                 last_updated := 0%Z |}
              (Permutation_rev _)) as [m' Hm'].
  - vm_compute. reflexivity.
  - exists m'. split; [vm_compute; reflexivity | exact Hm'].
Defined.

End MonitorOrder.

(** * Properties of the batch test of the monitor *)

Section BatchTestProperties.
Import Monitor MonitorRun Cases.

Lemma loop_effect_skip (img cls : string) (rest : list (string * string))
    (c t : nat) (w w1 : World) (c' t' : nat) (w' : World) (sent : list string) :
  filter (can_open w) [img] = sent ->
  posted w1 = posted w ++ sent ->
  can_open w1 = can_open w ->
  monitor w1 = monitor w -> pauses w1 = pauses w ->
  loop_effect rest c t w1 c' t' w' ->
  loop_effect ((img, cls) :: rest) c t w c' t' w'.
Proof.
  intros Hsent Hp1 Ho1 Hm1 Hz1 (added & Hp & Hl & Hs & Ht & Hc & Hz).
  exists added. rewrite Hp, Hp1, Hl, Hm1, Hz, Hz1, Ho1, <- app_assoc, <- Hsent.
  repeat split; try assumption.
  - cbn [map fst filter]. destruct (can_open w img); reflexivity.
  - cbn [map]. now constructor.
Qed.

Lemma loop_effect_logged (img cls : string) (rest : list (string * string))
    (e : PredictionEntry) (c t c1 t1 : nat) (w w2 : World) (c' t' : nat) (w' : World) :
  can_open w img = true ->
  posted w2 = posted w ++ [img] ->
  can_open w2 = can_open w ->
  predictions_log (monitor w2) = predictions_log (monitor w) ++ [e] ->
  labeled_image e = (img, Some cls) ->
  t1 = (t + (if counted e then 1 else 0))%nat ->
  c1 = (c + (if counted_correct e then 1 else 0))%nat ->
  pauses w2 = (pauses w + (if counted e then 1 else 0))%nat ->
  loop_effect rest c1 t1 w2 c' t' w' ->
  loop_effect ((img, cls) :: rest) c t w c' t' w'.
Proof.
  intros Ho Hp2 Ho2 Hl2 He Ht1 Hc1 Hz2 (added & Hp & Hl & Hs & Ht & Hc & Hz).
  exists (e :: added).
  rewrite Hp, Hp2, Hl, Hl2, Hz, Hz2, Ho2, <- !app_assoc.
  cbn [map fst filter]. rewrite Ho. unfold count in *. cbn [filter].
  subst t1 c1 t' c'.
  repeat split.
  - cbn [map]. rewrite He. now constructor.
  - destruct (counted e); cbn [length]; lia.
  - destruct (counted_correct e); cbn [length]; lia.
  - destruct (counted e); cbn [length]; lia.
Qed.

Lemma test_loop_effect (images : list (string * string)) :
  Forall (fun ic => snd ic = "cat" \/ snd ic = "dog") images ->
  forall c t w c' t' w',
    test_loop images c t w = (c', t', w') ->
    loop_effect images c t w c' t' w'.
Proof.
  induction 1 as [|[img cls] rest Hcls _ IH]; intros c t w c' t' w' H.
  - injection H as <- <- <-. exists [].
    cbn [map filter count length]. unfold count. cbn [filter length].
    rewrite !app_nil_r, !Nat.add_0_r. repeat split. constructor.
  - cbn [test_loop] in H. cbn [snd] in Hcls.
    destruct (can_open w img) eqn:Hopen.
    2:{ apply IH in H. eapply (loop_effect_skip img cls rest c t w w);
          [cbn [filter]; rewrite Hopen; reflexivity | now rewrite app_nil_r
          | reflexivity | reflexivity | reflexivity | exact H]. }
    cbn [post_image] in H.
    assert (Hsent : filter (can_open w) [img] = [img])
      by (cbn [filter]; now rewrite Hopen).
    destruct (predict w (posted w) img) as [msg|code body].
    { apply IH in H. eapply loop_effect_skip; [exact Hsent | | | | | exact H]; reflexivity. }
    destruct (code =? 200)%Z;
      [|apply IH in H; eapply loop_effect_skip; [exact Hsent | | | | | exact H];
        reflexivity].
    destruct body as [b|];
      [|apply IH in H; eapply loop_effect_skip; [exact Hsent | | | | | exact H];
        reflexivity].
    unfold log_in_world, log_prediction in H. cbn [monitor clock reads] in H.
    set (e := prediction_entry (clock w (reads w)) img (body_predicted_class b)
                (Some cls) (confidence_or_zero b)) in *.
    assert (Hcounted : counted e =
                       match format_confidence (confidence_or_zero b) with
                       | Ok _ => true | Raise _ => false end) by reflexivity.
    assert (Hcorrect : is_correct e = (body_predicted_class b =? cls)).
    { unfold e, is_correct, prediction_entry. cbn [correct].
      destruct Hcls as [-> | ->];
        [change (truthy (Some "cat")) with true
        |change (truthy (Some "dog")) with true];
        cbv iota; apply String.eqb_sym. }
    destruct (format_confidence (confidence_or_zero b)) as [u|err] eqn:Hfmt.
    + apply IH in H.
      eapply (loop_effect_logged img cls rest e c t); [exact Hopen | | | | | | | | exact H].
      * reflexivity.
      * reflexivity.
      * cbn [pause monitor]. unfold _save_logs. cbn [writable predictions_log].
        destruct (writable (monitor w)); reflexivity.
      * reflexivity.
      * rewrite Hcounted. lia.
      * unfold counted_correct. rewrite Hcounted, Hcorrect. cbn [andb].
        destruct (body_predicted_class b =? cls); lia.
      * rewrite Hcounted. cbn [pause pauses]. lia.
    + apply IH in H.
      eapply (loop_effect_logged img cls rest e c t); [exact Hopen | | | | | | | | exact H].
      * reflexivity.
      * reflexivity.
      * cbn [monitor]. unfold _save_logs. cbn [writable predictions_log].
        destruct (writable (monitor w)); reflexivity.
      * reflexivity.
      * rewrite Hcounted. lia.
      * unfold counted_correct. rewrite Hcounted. cbn [andb]. lia.
      * rewrite Hcounted. cbn [pauses]. lia.
Qed.

Lemma test_images_candidates (w : World) : test_images w = candidates w.
Proof.
  unfold test_images, candidates, class_images, class_files.
  cbn [flat_map]. rewrite app_nil_r.
  destruct (class_dir w "cat"), (class_dir w "dog"); reflexivity.
Qed.

Lemma candidates_classes (w : World) :
  Forall (fun ic => snd ic = "cat" \/ snd ic = "dog") (candidates w).
Proof.
  unfold candidates. apply Forall_app. split; apply Forall_forall; intros ic Hic;
    apply in_map_iff in Hic as (f & <- & _); auto.
Qed.

Lemma counted_correct_le (added : list PredictionEntry) :
  (count counted_correct added <= count counted added)%nat.
Proof.
  unfold count, counted_correct.
  induction added as [|e added IH]; [simpl; lia|]. cbn [filter].
  destruct (counted e); cbn [andb length]; [|exact IH].
  destruct (is_correct e); cbn [length]; lia.
Qed.

Lemma batch_accuracy_bounds (added : list PredictionEntry) :
  0 <= batch_accuracy added /\ batch_accuracy added <= 100.
Proof.
  unfold batch_accuracy.
  destruct (0 <? count counted added)%nat eqn:Ht.
  - apply Nat.ltb_lt in Ht.
    apply percentage_bounds; [apply counted_correct_le | lia].
  - split; [apply Qle_refl | discriminate].
Qed.

(** X9. What one call of [test_with_known_images] does. Without the test
    directory, nothing. With it, the images posted are the first five cat
    images followed by the first five dog images, those that cannot be
    opened left out; the entries appended belong to some of these images,
    in the same order, each under the true label of its image; and there
    is one half-second pause for each appended entry whose logging call
    returned normally. *)
Theorem test_with_known_images_effect :
  forall w : World,
    let w' := snd (test_with_known_images w) in
    (test_dir_exists w = false -> w' = w) /\
    (test_dir_exists w = true ->
     posted w' = posted w ++ filter (can_open w) (map fst (candidates w)) /\
     exists added : list PredictionEntry,
       predictions_log (monitor w') = predictions_log (monitor w) ++ added /\
       subseq (map labeled_image added) (map as_labeled (candidates w)) /\
       pauses w' = (pauses w + count counted added)%nat).
Proof.
  intros w. unfold test_with_known_images. split; intros Hdir; rewrite Hdir.
  - reflexivity.
  - rewrite test_images_candidates.
    destruct (test_loop (candidates w) 0 0 w) as [[c' t'] w1] eqn:Hloop.
    destruct (test_loop_effect _ (candidates_classes w) _ _ _ _ _ _ Hloop)
      as (added & Hp & Hl & Hs & _ & _ & Hz).
    assert (Hw1 : forall r : result (option Q), snd (r, w1) = w1) by reflexivity.
    destruct (0 <? t')%nat; rewrite Hw1; (split; [exact Hp|]);
      exists added; repeat split; assumption.
Qed.

(** X10. What [test_with_known_images] returns; it never raises. Without
    the test directory it returns nothing and changes nothing. With it, it
    returns the accuracy in percent over the appended entries whose logging
    call returned normally: the share of them whose predicted class is the
    true label, and 0 when there is no such entry; the value lies between
    0 and 100. *)
Theorem test_with_known_images_result :
  forall w : World,
    (test_dir_exists w = false -> test_with_known_images w = (Ok None, w)) /\
    (test_dir_exists w = true ->
     exists added : list PredictionEntry,
       predictions_log (monitor (snd (test_with_known_images w)))
         = predictions_log (monitor w) ++ added /\
       fst (test_with_known_images w) = Ok (Some (batch_accuracy added)) /\
       0 <= batch_accuracy added /\ batch_accuracy added <= 100).
Proof.
  intros w. unfold test_with_known_images. split; intros Hdir; rewrite Hdir.
  - reflexivity.
  - rewrite test_images_candidates.
    destruct (test_loop (candidates w) 0 0 w) as [[c' t'] w1] eqn:Hloop.
    destruct (test_loop_effect _ (candidates_classes w) _ _ _ _ _ _ Hloop)
      as (added & _ & Hl & _ & Ht & Hc & _).
    cbn [Nat.add] in Ht, Hc. subst c' t'.
    exists added. unfold batch_accuracy at 1.
    destruct (0 <? count counted added)%nat eqn:Hpos; cbn [fst snd].
    + apply Nat.ltb_lt in Hpos. rewrite py_div_ok by lia. cbn [bind].
      split; [exact Hl|]. split; [reflexivity | apply batch_accuracy_bounds].
    + split; [exact Hl|]. split; [reflexivity | apply batch_accuracy_bounds].
Qed.

End BatchTestProperties.

(** * Further properties of the deployment manager *)

Section DeployMore.
Import Net Deploy Observe Cases.

Lemma deploy_stages (run_tests : bool) (dm : DeploymentManager) (w : World) :
    fst (deploy run_tests dm w) = true <->
    exists commands w1 w2,
      provisioning_commands dm = Some commands /\
      run_commands commands w = (true, w1) /\
      wait_for_deployment default_max_wait dm w1 = (true, w2) /\
      (run_tests = true -> fst (run_smoke_tests dm w2) = true).
Proof.
  assert (Hstages : forall commands,
    fst (let '(provisioned, w1) := run_commands commands w in
         if provisioned then
           let '(ready, w2) := wait_for_deployment default_max_wait dm w1 in
           if ready then
             if run_tests then
               let '(tested, w3) := run_smoke_tests dm w2 in
               if tested then (true, w3) else (false, w3)
             else (true, w2)
           else (false, w2)
         else (false, w1)) = true <->
    exists w1 w2,
      run_commands commands w = (true, w1) /\
      wait_for_deployment default_max_wait dm w1 = (true, w2) /\
      (run_tests = true -> fst (run_smoke_tests dm w2) = true)).
  { intros commands.
    destruct (run_commands commands w) as [[|] w1].
    2:{ split; [discriminate | intros (? & ? & [=] & _)]. }
    destruct (wait_for_deployment default_max_wait dm w1) as [[|] w2] eqn:Hwait.
    2:{ split; [discriminate|]. intros (w1' & w2' & [= <-] & Hw & _).
        rewrite Hwait in Hw. discriminate Hw. }
    destruct run_tests.
    - destruct (run_smoke_tests dm w2) as [[|] w3] eqn:Hsmoke.
      + split; [|reflexivity]. intros _. exists w1, w2.
        split; [reflexivity|]. split; [exact Hwait|]. intros _. now rewrite Hsmoke.
      + split; [discriminate|]. intros (w1' & w2' & [= <-] & Hw & Ht).
        rewrite Hwait in Hw. injection Hw as <-. rewrite Hsmoke in Ht.
        now specialize (Ht eq_refl).
    - split; [|reflexivity]. intros _. exists w1, w2.
      split; [reflexivity|]. split; [exact Hwait | discriminate]. }
  unfold deploy, provisioning_commands, deploy_docker_compose, deploy_kubernetes.
  destruct (deployment_type dm =? "docker").
  - rewrite (Hstages docker_commands). split.
    + intros (w1 & w2 & H). now exists docker_commands, w1, w2.
    + intros (commands & w1 & w2 & [= <-] & H). now exists w1, w2.
  - destruct (deployment_type dm =? "k8s").
    + rewrite (Hstages k8s_commands). split.
      * intros (w1 & w2 & H). now exists k8s_commands, w1, w2.
      * intros (commands & w1 & w2 & [= <-] & H). now exists w1, w2.
    + split; [discriminate | intros (? & ? & ? & [=] & _)].
Qed.

(** X11. [deploy] returns [True] exactly when its three stages succeed one
    after the other: the commands of the selected plan, the wait for the
    service in the world they leave, and, unless tests are skipped, the
    smoke tests in the world the wait leaves. *)
Theorem deploy_true_iff_all_stages :
  forall (run_tests : bool) (dm : DeploymentManager) (w : World),
    fst (deploy run_tests dm w) = true <->
    exists commands w1 w2,
      provisioning_commands dm = Some commands /\
      run_commands commands w = (true, w1) /\
      wait_for_deployment default_max_wait dm w1 = (true, w2) /\
      (run_tests = true -> fst (run_smoke_tests dm w2) = true).
Proof. exact deploy_stages. Qed.

(** X12. With a deployment type other than docker and k8s, [deploy] fails
    at once and [rollback] does nothing: neither touches the outside world. *)
Theorem unknown_deployment_type_is_inert :
  forall (run_tests : bool) (dm : DeploymentManager) (w : World),
    deployment_type dm <> "docker" ->
    deployment_type dm <> "k8s" ->
    deploy run_tests dm w = (false, w) /\ rollback dm w = w.
Proof.
  intros run_tests dm w Hd Hk.
  apply String.eqb_neq in Hd, Hk.
  unfold deploy, rollback, teardown_command. now rewrite Hd, Hk.
Qed.

Lemma unknown_deployment_type_is_inert_witness :
  deploy true swarm_manager w_up = (false, w_up) /\ rollback swarm_manager w_up = w_up.
Proof.
  apply (unknown_deployment_type_is_inert true swarm_manager w_up); discriminate.
Defined.

(** X13. A [max_wait] below 10 seconds leaves no room for a single poll:
    [wait_for_deployment] reports a timeout without contacting the service,
    even if it is ready. *)
Theorem wait_for_deployment_short_budget :
  forall (max_wait : Z) (dm : DeploymentManager) (w : World),
    (max_wait < 10)%Z ->
    wait_for_deployment max_wait dm w = (false, w).
Proof.
  intros max_wait dm w Hlt. unfold wait_for_deployment, attempts.
  assert (Hdiv : (max_wait / 10 <= 0)%Z).
  { destruct (Z.le_gt_cases 0 max_wait) as [Hpos | Hneg].
    - rewrite Z.div_small; lia.
    - pose proof (Z.div_lt_upper_bound max_wait 10 0). lia. }
  destruct (max_wait / 10)%Z; try lia; reflexivity.
Qed.

Lemma wait_for_deployment_short_budget_witness :
  wait_for_deployment 9 (new "docker") w_up = (false, w_up).
Proof.
  apply (wait_for_deployment_short_budget 9 (new "docker") w_up). reflexivity.
Defined.

Lemma nth_poll_shift (dm : DeploymentManager) (w : World) (i : nat) :
  nth_poll dm (time_sleep 10 (record (Get (health_url dm)) w)) i = nth_poll dm w (S i).
Proof.
  unfold nth_poll. cbn [http_get time_sleep record].
  now rewrite <- (polls_before_snoc (health_url dm) w i).
Qed.

Lemma wait_loop_trace (n : nat) (dm : DeploymentManager) :
  forall w,
    (fst (wait_loop n dm w) = false ->
     history (snd (wait_loop n dm w)) = history w ++ polls_before (health_url dm) n) /\
    (fst (wait_loop n dm w) = true ->
     exists i, (i < n)%nat /\
       history (snd (wait_loop n dm w))
         = history w ++ polls_before (health_url dm) i ++ [Get (health_url dm)] /\
       poll_ready (nth_poll dm w i) = true /\
       forall j, (j < i)%nat -> poll_ready (nth_poll dm w j) = false).
Proof.
  induction n as [|n IH]; intros w.
  - simpl. split; [intros _; now rewrite app_nil_r | discriminate].
  - cbn [wait_loop requests_get]. fold (health_url dm).
    destruct (poll_ready (http_get w (history w) (health_url dm))) eqn:Hready.
    + split; [discriminate|]. intros _. exists O. cbn [fst snd polls_before].
      repeat split; try lia.
      unfold nth_poll. simpl. now rewrite app_nil_r.
    + destruct (IH (time_sleep 10 (record (Get (health_url dm)) w))) as [IHf IHt].
      split.
      * intros Hf. rewrite (IHf Hf). apply polls_before_snoc.
      * intros Ht. destruct (IHt Ht) as (i & Hi & Hh & Hp & Hbefore).
        exists (S i). split; [lia|]. split; [|split].
        -- rewrite Hh, app_assoc, polls_before_snoc, <- app_assoc. reflexivity.
        -- now rewrite <- nth_poll_shift.
        -- intros j Hj. destruct j as [|j].
           ++ unfold nth_poll. simpl. now rewrite app_nil_r.
           ++ rewrite <- nth_poll_shift. apply Hbefore. lia.
Qed.

(** X14. The exact trace of [wait_for_deployment]: when it succeeds it has
    stopped at the first poll answering 200, each earlier poll being
    followed by a 10-second sleep and the last one by none; when it times
    out it has made all [max_wait // 10] polls, each followed by a sleep. *)
Theorem wait_for_deployment_trace :
  forall (max_wait : Z) (dm : DeploymentManager) (w : World),
    let out := wait_for_deployment max_wait dm w in
    (fst out = false ->
     history (snd out) = history w ++ polls_before (health_url dm) (attempts max_wait)) /\
    (fst out = true ->
     exists i, (i < attempts max_wait)%nat /\
       history (snd out)
         = history w ++ polls_before (health_url dm) i ++ [Get (health_url dm)] /\
       poll_ready (nth_poll dm w i) = true /\
       forall j, (j < i)%nat -> poll_ready (nth_poll dm w j) = false).
Proof.
  intros max_wait dm w. apply wait_loop_trace.
Qed.

End DeployMore.

Section DeployCliProperties.
Import Net Deploy DeployCli Observe Cases.

(** X15. [main] with [--rollback] runs exactly one command, the teardown
    command of the chosen type, contacts no service and exits with status 0
    whether or not that command succeeds. *)
Theorem main_rollback_always_exits_zero :
  forall (args : Args) (w : World),
    rollback args = true ->
    fst (main args w) = 0%Z /\
    exists command,
      teardown_command (new (type_name (type args))) = Some command /\
      history (snd (main args w)) = history w ++ [Run command].
Proof.
  intros args w Hr. unfold main. rewrite Hr. split; [reflexivity|].
  destruct (type args); eexists; split; reflexivity.
Qed.

Lemma main_rollback_always_exits_zero_witness :
  fst (main {| type := K8s; no_tests := false; rollback := true |} w_down) = 0%Z /\
  exists command,
    teardown_command (new (type_name K8s)) = Some command /\
    history (snd (main {| type := K8s; no_tests := false; rollback := true |} w_down))
      = history w_down ++ [Run command].
Proof.
  apply (main_rollback_always_exits_zero
           {| type := K8s; no_tests := false; rollback := true |} w_down).
  reflexivity.
Defined.

End DeployCliProperties.

(** * Further properties of the smoke tests *)

Section SmokeMore.
Import Net Smoke Observe Cases.

Ltac split_matches :=
  repeat match goal with
         | |- context [match ?x with _ => _ end] => destruct x eqn:?
         end.

Lemma judge_prediction_status (data : json) (status : string) (msg : Message) :
  judge_prediction data = Ok (status, msg) -> status = "PASS" \/ status = "FAIL".
Proof.
  unfold judge_prediction, bind. intros H.
  repeat match type of H with
         | context [match ?x with _ => _ end] => destruct x; try discriminate H
         end;
    injection H as <- _; auto.
Qed.

Lemma health_outcome (t : SmokeTest) (w : World) :
  probe_outcome "Health Check" t (test_health_endpoint t w).
Proof.
  unfold probe_outcome, test_health_endpoint, requests_get.
  split_matches; cbn [fst snd]; do 2 eexists; (split; [reflexivity|]); auto.
Qed.

Lemma prediction_outcome (t : SmokeTest) (w : World) :
  probe_outcome "Prediction" t (test_prediction_endpoint t w).
Proof.
  unfold probe_outcome, test_prediction_endpoint, requests_post.
  split_matches; cbn [fst snd]; do 2 eexists; (split; [reflexivity|]);
    try (split; [auto | reflexivity]).
  all: match goal with
       | H : judge_prediction _ = Ok (_, _) |- _ =>
           exact (judge_prediction_status _ _ _ H)
       end.
Qed.

Lemma metrics_outcome (t : SmokeTest) (w : World) :
  probe_outcome "Metrics" t (test_metrics_endpoint t w).
Proof.
  unfold probe_outcome, test_metrics_endpoint, requests_get.
  split_matches; cbn [fst snd]; do 2 eexists; (split; [reflexivity|]); auto.
Qed.

(** X16. Each of the three endpoint probes appends exactly one result under
    its own name, with status PASS or FAIL, and returns [True] exactly when
    that status is PASS. *)
Theorem endpoint_probes_record_what_they_return :
  forall (t : SmokeTest) (w : World),
    probe_outcome "Health Check" t (test_health_endpoint t w) /\
    probe_outcome "Prediction" t (test_prediction_endpoint t w) /\
    probe_outcome "Metrics" t (test_metrics_endpoint t w).
Proof.
  intros t w. split; [apply health_outcome|].
  split; [apply prediction_outcome | apply metrics_outcome].
Qed.

Lemma lookup_existsb (key : string) (fields : list (string * json)) :
  existsb (fun kv => fst kv =? key) fields = true <-> lookup key fields <> None.
Proof.
  induction fields as [|[k v] rest IH]; simpl.
  - split; [discriminate | congruence].
  - destruct (k =? key); simpl; [split; [discriminate | reflexivity] | exact IH].
Qed.

Lemma Qgtb_lt (a b : Q) : Qgtb a b = true <-> b < a.
Proof.
  unfold Qgtb. rewrite negb_true_iff. split.
  - intros H. apply Qnot_le_lt. intros Hle. apply Qle_bool_iff in Hle. congruence.
  - intros H. destruct (Qle_bool a b) eqn:Hle; [|reflexivity].
    apply Qle_bool_iff in Hle. exfalso. exact (Qlt_not_le _ _ H Hle).
Qed.

(** A confidence the prediction probe accepts: [true], or a number greater
    than 0 that a float can hold. *)
Lemma accepted_confidence (c : json) :
  positive c = Ok true /\ format_2f c = Ok tt <->
  c = JBool true \/ exists q, c = JNum q /\ 0 < q /\ fits_double q = true.
Proof.
  destruct c as [|b|q|s|items|fields]; cbn [positive format_2f].
  - split; [intros [[=] _] | intros [[=] | (q & [=] & _)]].
  - split.
    + intros [[= ->] _]. now left.
    + intros [[= ->] | (q & [=] & _)]. split; reflexivity.
  - split.
    + intros [[= Hpos] Hfit]. right. exists q. split; [reflexivity|].
      split; [now apply Qgtb_lt|]. now destruct (fits_double q).
    + intros [[=] | (q' & [= <-] & Hpos & Hfit)]. rewrite Hfit.
      apply Qgtb_lt in Hpos. now rewrite Hpos.
  - split; [intros [[=] _] | intros [[=] | (q & [=] & _)]].
  - split; [intros [[=] _] | intros [[=] | (q & [=] & _)]].
  - split; [intros [[=] _] | intros [[=] | (q & [=] & _)]].
Qed.

(** X17. The prediction probe accepts a decoded body exactly when it is a
    JSON object that has a [predicted_class] key and whose [confidence] is
    [true] or a number greater than 0 that a float can hold (the PASS
    message formats it with [:.2f]); any other body is not a PASS. *)
Theorem judge_prediction_pass_iff :
  forall data : json,
    (exists msg, judge_prediction data = Ok ("PASS", msg)) <->
    exists fields c,
      data = JObj fields /\
      lookup "predicted_class" fields <> None /\
      lookup "confidence" fields = Some c /\
      (c = JBool true \/ exists q, c = JNum q /\ 0 < q /\ fits_double q = true).
Proof.
  intros data. unfold judge_prediction. split.
  - intros [msg H]. destruct data as [| | | |items|fields];
      cbn [py_in bind] in H; try discriminate H.
    + destruct (contains "predicted_class" s);
        [destruct (contains "confidence" s)|]; cbn [bind getitem] in H;
        discriminate H.
    + destruct (existsb _ items);
        [destruct (existsb _ items)|]; cbn [bind getitem] in H; discriminate H.
    + destruct (existsb (fun kv => fst kv =? "predicted_class") fields) eqn:Hpc;
        [|cbn [bind] in H; discriminate H].
      cbn [bind] in H.
      destruct (existsb (fun kv => fst kv =? "confidence") fields) eqn:Hcf;
        [|cbn [bind] in H; discriminate H].
      cbn [bind getitem] in H.
      destruct (lookup "confidence" fields) as [c|] eqn:Hc; [|discriminate H].
      cbn [bind] in H.
      destruct (positive c) as [[|]|] eqn:Hpos; cbn [bind] in H; try discriminate H.
      destruct (format_2f c) as [[]|] eqn:Hfmt; cbn [bind] in H; try discriminate H.
      exists fields, c. split; [reflexivity|]. split; [now apply lookup_existsb|].
      split; [exact Hc|]. apply accepted_confidence. now split.
  - intros (fields & c & -> & Hpc & Hc & Hacc).
    apply accepted_confidence in Hacc as [Hpos Hfmt].
    apply lookup_existsb in Hpc.
    assert (Hcf : existsb (fun kv => fst kv =? "confidence") fields = true).
    { apply lookup_existsb. congruence. }
    cbn [py_in bind]. rewrite Hpc. cbn [bind]. rewrite Hcf. cbn [bind getitem].
    rewrite Hc. cbn [bind]. rewrite Hpos. cbn [bind]. rewrite Hfmt. cbn [bind].
    eexists. reflexivity.
Qed.

Lemma name_status_append (r : TestResult) (t : SmokeTest) :
  map name_status (test_results (append r t)) =
  map name_status (test_results t) ++ [name_status r].
Proof. unfold append. cbn [test_results]. now rewrite map_app. Qed.

(** The three results of [test_monitoring_services] and its return value. *)
Lemma monitoring_outcome (t : SmokeTest) (w : World) :
  exists s4 s5 s6,
    map name_status (test_results (snd (fst (test_monitoring_services t w)))) =
      map name_status (test_results t)
      ++ [("Grafana", s4); ("Prometheus", s5); ("MLflow", s6)] /\
    (s4 = "PASS" \/ s4 = "FAIL") /\ (s5 = "PASS" \/ s5 = "FAIL") /\
    (s6 = "PASS" \/ s6 = "FAIL" \/ s6 = "SKIP") /\
    fst (fst (test_monitoring_services t w)) =
      negb (s4 =? "FAIL") && negb (s5 =? "FAIL") && negb (s6 =? "FAIL").
Proof.
  unfold test_monitoring_services, monitoring_services.
  cbn [monitoring_loop requests_get].
  destruct (http_get w (history w) "http://localhost:3000") as [a1|e1];
    cbn [service_result]; [destruct (status_code a1 =? 200)%Z|];
    cbn [String.eqb Ascii.eqb Bool.eqb];
    (destruct (http_get _ _ "http://localhost:9090") as [a2|e2];
     cbn [service_result]; [destruct (status_code a2 =? 200)%Z|];
     cbn [String.eqb Ascii.eqb Bool.eqb];
     (destruct (http_get _ _ "http://localhost:5000") as [a3|e3];
      cbn [service_result]; [destruct (status_code a3 =? 200)%Z|];
      cbn [String.eqb Ascii.eqb Bool.eqb]; cbn [fst snd];
      rewrite !name_status_append, <- !app_assoc; cbn [app name_status fst snd status_of];
      do 3 eexists; (split; [reflexivity|]); repeat split; auto)).
Qed.

(** X18. [test_monitoring_services] appends exactly three results, for
    Grafana, Prometheus and MLflow in this order; SKIP can only be the
    status of MLflow, and the return value is [True] exactly when none of
    the three is FAIL. *)
Theorem test_monitoring_services_outcome :
  forall (t : SmokeTest) (w : World),
    exists s4 s5 s6,
      map name_status (test_results (snd (fst (test_monitoring_services t w)))) =
        map name_status (test_results t)
        ++ [("Grafana", s4); ("Prometheus", s5); ("MLflow", s6)] /\
      (s4 = "PASS" \/ s4 = "FAIL") /\ (s5 = "PASS" \/ s5 = "FAIL") /\
      (s6 = "PASS" \/ s6 = "FAIL" \/ s6 = "SKIP") /\
      (fst (fst (test_monitoring_services t w)) = true <->
       s4 <> "FAIL" /\ s5 <> "FAIL" /\ s6 <> "FAIL").
Proof.
  intros t w.
  destruct (monitoring_outcome t w) as (s4 & s5 & s6 & Hres & H4 & H5 & H6 & Hret).
  exists s4, s5, s6. repeat split; try assumption.
  - rewrite Hret in H. apply andb_prop in H as [H _]. apply andb_prop in H as [H _].
    apply negb_true_iff in H. now apply String.eqb_neq.
  - rewrite Hret in H. apply andb_prop in H as [H _]. apply andb_prop in H as [_ H].
    apply negb_true_iff in H. now apply String.eqb_neq.
  - rewrite Hret in H. apply andb_prop in H as [_ H].
    apply negb_true_iff in H. now apply String.eqb_neq.
  - intros (N4 & N5 & N6). rewrite Hret.
    apply String.eqb_neq in N4, N5, N6. now rewrite N4, N5, N6.
Qed.

End SmokeMore.

Section SmokeRuns.
Import Net Smoke Observe Cases.

Lemma fail_count_results (rs : list TestResult) :
  failed rs = fail_count (map name_status rs).
Proof.
  rewrite failed_counts_fail. unfold fail_count, count.
  induction rs as [|r rs IH]; [reflexivity|]. simpl.
  destruct (status_of r =? "FAIL"); simpl; now rewrite IH.
Qed.

Lemma run_all_tests_verdict (t : SmokeTest) (w : World) :
  fst (fst (run_all_tests t w)) =
  (fail_count (map name_status (test_results (snd (fst (run_all_tests t w))))) =? 0)%nat.
Proof.
  unfold run_all_tests.
  destruct (test_health_endpoint t (time_sleep 10 w)) as [[b1 t1] w1].
  destruct (test_prediction_endpoint t1 w1) as [[b2 t2] w2].
  destruct (test_metrics_endpoint t2 w2) as [[b3 t3] w3].
  destruct (test_monitoring_services t3 w3) as [[b4 t4] w4].
  cbn [fst snd]. now rewrite fail_count_results.
Qed.

Lemma run_all_tests_shape (t : SmokeTest) (w : World) :
  exists s1 s2 s3 s4 s5 s6,
    map name_status (test_results (snd (fst (run_all_tests t w)))) =
      map name_status (test_results t)
      ++ [ ("Health Check", s1); ("Prediction", s2); ("Metrics", s3);
           ("Grafana", s4); ("Prometheus", s5); ("MLflow", s6) ] /\
    (s1 = "PASS" \/ s1 = "FAIL") /\ (s2 = "PASS" \/ s2 = "FAIL") /\
    (s3 = "PASS" \/ s3 = "FAIL") /\ (s4 = "PASS" \/ s4 = "FAIL") /\
    (s5 = "PASS" \/ s5 = "FAIL") /\ (s6 = "PASS" \/ s6 = "FAIL" \/ s6 = "SKIP").
Proof.
  unfold run_all_tests.
  destruct (health_outcome t (time_sleep 10 w)) as (s1 & m1 & E1 & P1 & _).
  destruct (test_health_endpoint t (time_sleep 10 w)) as [[b1 t1] w1].
  cbn [fst snd] in E1. subst t1.
  destruct (prediction_outcome (append ("Health Check", s1, m1) t) w1)
    as (s2 & m2 & E2 & P2 & _).
  destruct (test_prediction_endpoint _ w1) as [[b2 t2] w2].
  cbn [fst snd] in E2. subst t2.
  destruct (metrics_outcome
              (append ("Prediction", s2, m2) (append ("Health Check", s1, m1) t)) w2)
    as (s3 & m3 & E3 & P3 & _).
  destruct (test_metrics_endpoint _ w2) as [[b3 t3] w3].
  cbn [fst snd] in E3. subst t3.
  destruct (monitoring_outcome
              (append ("Metrics", s3, m3)
                 (append ("Prediction", s2, m2) (append ("Health Check", s1, m1) t))) w3)
    as (s4 & s5 & s6 & E4 & P4 & P5 & P6 & _).
  destruct (test_monitoring_services _ w3) as [[b4 t4] w4].
  cbn [fst snd] in E4 |- *.
  exists s1, s2, s3, s4, s5, s6.
  rewrite E4, !name_status_append, <- !app_assoc.
  repeat split; assumption.
Qed.

(** X19. Every run of the suite appends exactly six results to those the
    object already holds: Health Check, Prediction, Metrics, Grafana,
    Prometheus and MLflow, in this order, the first five with status PASS or
    FAIL and the last with PASS, FAIL or SKIP. *)
Theorem run_all_tests_appends_six_results :
  forall (t : SmokeTest) (w : World),
    exists statuses,
      map name_status (test_results (snd (fst (run_all_tests t w)))) =
        map name_status (test_results t) ++ combine probe_names statuses /\
      length statuses = 6%nat /\
      Forall (fun s => s = "PASS" \/ s = "FAIL") (firstn 5 statuses) /\
      Forall (fun s => s = "PASS" \/ s = "FAIL" \/ s = "SKIP") (skipn 5 statuses).
Proof.
  intros t w.
  destruct (run_all_tests_shape t w)
    as (s1 & s2 & s3 & s4 & s5 & s6 & E & P1 & P2 & P3 & P4 & P5 & P6).
  exists [s1; s2; s3; s4; s5; s6]. split; [exact E|]. split; [reflexivity|].
  split; simpl; repeat (apply Forall_cons; [assumption|]); apply Forall_nil.
Qed.

(** X20. A suite created for the run passes exactly when the health,
    prediction and metrics probes and the Grafana and Prometheus checks are
    all PASS, and the MLflow check is PASS or SKIP. *)
Theorem fresh_run_passes_iff :
  forall (url : string) (w : World),
    fst (fst (run_all_tests (new url) w)) = true <->
    exists s6,
      map name_status (test_results (snd (fst (run_all_tests (new url) w)))) =
        [ ("Health Check", "PASS"); ("Prediction", "PASS"); ("Metrics", "PASS");
          ("Grafana", "PASS"); ("Prometheus", "PASS"); ("MLflow", s6) ] /\
      (s6 = "PASS" \/ s6 = "SKIP").
Proof.
  intros url w. rewrite run_all_tests_verdict.
  destruct (run_all_tests_shape (new url) w)
    as (s1 & s2 & s3 & s4 & s5 & s6 & E & P1 & P2 & P3 & P4 & P5 & P6).
  rewrite E. cbn [new test_results map app]. split.
  - intros Hv.
    destruct P1 as [-> | ->], P2 as [-> | ->], P3 as [-> | ->],
             P4 as [-> | ->], P5 as [-> | ->], P6 as [-> | [-> | ->]];
      try discriminate Hv; eexists; split; try reflexivity; auto.
  - intros (s & [= -> -> -> -> -> ->] & [-> | ->]); reflexivity.
Qed.

Lemma fail_count_app (xs ys : list (string * string)) :
  fail_count (xs ++ ys) = (fail_count xs + fail_count ys)%nat.
Proof. unfold fail_count, count. now rewrite filter_app, length_app. Qed.

Lemma fail_count_zero_iff (rows : list (string * string)) :
  fail_count rows = O <-> Forall (fun row => snd row <> "FAIL") rows.
Proof.
  unfold fail_count, count. induction rows as [|row rows IH]; simpl.
  - split; [constructor | reflexivity].
  - destruct (String.eqb_spec (snd row) "FAIL") as [Heq | Hne]; simpl.
    + split; [discriminate|]. intros Hall. inversion Hall; contradiction.
    + rewrite IH. split; [now constructor | intros Hall; now inversion Hall].
Qed.

(** C5. The verdict of [run_all_tests] in terms of the results of the run.
    Every run produces six results, one per probe in the fixed order. On a
    newly created suite, as [main] and [deploy] create one for each run, the
    verdict is Pass exactly when none of the six is FAIL; SKIP is no
    failure. In general the verdict also counts the results the object
    held before the run: it is Pass exactly when neither those nor the six
    of this run contain a FAIL. *)
Theorem run_all_tests_verdict_over_results :
  forall (t : SmokeTest) (w : World),
    exists statuses : list string,
      length statuses = 6%nat /\
      map name_status (test_results (snd (fst (run_all_tests t w)))) =
        map name_status (test_results t) ++ combine probe_names statuses /\
      (fst (fst (run_all_tests t w)) = true <->
       count (fun r => status_of r =? "FAIL") (test_results t) = O /\
       Forall (fun s => s <> "FAIL") statuses) /\
      (test_results t = [] ->
       (fst (fst (run_all_tests t w)) = true <->
        Forall (fun s => s <> "FAIL") statuses)).
Proof.
  intros t w.
  destruct (run_all_tests_shape t w) as (s1 & s2 & s3 & s4 & s5 & s6 & E & _).
  exists [s1; s2; s3; s4; s5; s6].
  split; [reflexivity|]. split; [exact E|].
  assert (Hsix : fail_count (combine probe_names [s1; s2; s3; s4; s5; s6]) = O <->
                 Forall (fun s => s <> "FAIL") [s1; s2; s3; s4; s5; s6]).
  { rewrite fail_count_zero_iff. cbn [combine probe_names]. split; intros Hall.
    - repeat match goal with
             | H : Forall _ (_ :: _) |- _ => inversion H; clear H; subst
             end.
      repeat (constructor; [assumption|]). constructor.
    - repeat match goal with
             | H : Forall _ (_ :: _) |- _ => inversion H; clear H; subst
             end.
      repeat (constructor; [assumption|]). constructor. }
  assert (Hverdict : fst (fst (run_all_tests t w)) = true <->
                     count (fun r => status_of r =? "FAIL") (test_results t) = O /\
                     Forall (fun s => s <> "FAIL") [s1; s2; s3; s4; s5; s6]).
  { rewrite run_all_tests_verdict, E. cbn [probe_names combine] in Hsix |- *.
    rewrite fail_count_app, Nat.eqb_eq, <- Hsix.
    rewrite <- failed_counts_fail, fail_count_results. lia. }
  split; [exact Hverdict|].
  intros Hfresh. rewrite Hverdict, Hfresh. unfold count. cbn [filter length]. tauto.
Qed.

(** A suite that has failed once is run again against services that pass
    every probe: the six results of the second run are all PASS, and its
    verdict is a failure. *)
Lemma reused_suite_fails_on_six_passes :
  let first := run_all_tests (new "http://localhost:8000") w_down in
  let second := run_all_tests (snd (fst first)) w_up in
  map name_status
      (skipn (length (test_results (snd (fst first))))
             (test_results (snd (fst second))))
    = combine probe_names ["PASS"; "PASS"; "PASS"; "PASS"; "PASS"; "PASS"] /\
  fst (fst second) = false.
Proof. vm_compute. split; reflexivity. Qed.

(** X21. The results of earlier runs are never cleared: once a run on a
    suite object has failed, every later run on the same object fails too,
    whatever the services answer then. *)
Theorem failed_suite_object_keeps_failing :
  forall (t : SmokeTest) (w w2 : World),
    fst (fst (run_all_tests t w)) = false ->
    fst (fst (run_all_tests (snd (fst (run_all_tests t w))) w2)) = false.
Proof.
  intros t w w2 Hfail.
  rewrite run_all_tests_verdict in Hfail |- *.
  destruct (run_all_tests_shape (snd (fst (run_all_tests t w))) w2)
    as (s1 & s2 & s3 & s4 & s5 & s6 & E & _).
  rewrite E, fail_count_app.
  apply Nat.eqb_neq in Hfail. apply Nat.eqb_neq. lia.
Qed.

Lemma failed_suite_object_keeps_failing_witness :
  fst (fst (run_all_tests (snd (fst (run_all_tests (new "http://localhost:8000") w_down)))
              w_up)) = false.
Proof.
  apply (failed_suite_object_keeps_failing (new "http://localhost:8000") w_down w_up).
  reflexivity.
Defined.

End SmokeRuns.

Section SmokeCliProperties.
Import Net Smoke SmokeCli Observe Cases.

(** X22. The exit status of the smoke-test script is 0 when no result is
    FAIL and 1 otherwise, and [--fail-on-error] changes nothing: with and
    without it the script does the same and exits with the same status. *)
Theorem smoke_main_exit_status :
  forall (args : Args) (w : World),
    (fst (fst (main args w)) = 0%Z <->
     count (fun r => status_of r =? "FAIL") (test_results (snd (fst (main args w)))) = O) /\
    (fst (fst (main args w)) = 0%Z \/ fst (fst (main args w)) = 1%Z) /\
    main args w =
      main {| url := url args; fail_on_error := negb (fail_on_error args) |} w.
Proof.
  intros args w. unfold main. cbn [url fail_on_error].
  pose proof (run_all_tests_verdict (new (url args)) w) as Hv.
  rewrite <- fail_count_results, failed_counts_fail in Hv.
  destruct (run_all_tests (new (url args)) w) as [[success t] w1].
  cbn [fst snd] in Hv.
  destruct success, (fail_on_error args); cbn [negb andb fst snd];
    symmetry in Hv; [apply Nat.eqb_eq in Hv | apply Nat.eqb_eq in Hv
                    | apply Nat.eqb_neq in Hv | apply Nat.eqb_neq in Hv];
    repeat split; auto; try discriminate; try (intros; exfalso; auto).
Qed.

End SmokeCliProperties.

(** * Further properties of the post-deployment evaluator *)

Section EvalMore.
Import Net Eval Observe Cases.




Lemma ratio_bounds (a b : nat) :
  (a <= b)%nat -> exists q, ratio a b = Ok q /\ 0 <= q /\ q <= 1.
Proof.
  intros Hab. unfold ratio.
  destruct (0 <? b)%nat eqn:Hb.
  - apply Nat.ltb_lt in Hb. rewrite py_div_ok by lia.
    eexists. split; [reflexivity|].
    destruct b as [|b]; [lia|].
    unfold Qle, Qdiv, Qmult, Qinv, Qnat. simpl. lia.
  - exists 0. split; [reflexivity|]. split; [apply Qle_refl | discriminate].
Qed.

Lemma Qnat_succ (n : nat) : Qnat (S n) == 1 + Qnat n.
Proof.
  unfold Qnat. rewrite Nat2Z.inj_succ, <- Z.add_1_l, inject_Z_plus. reflexivity.
Qed.

Lemma py_sum_unit (vs : list json) :
  Forall (fun v => exists q, number v = Ok q /\ 0 <= q /\ q <= 1) vs ->
  forall acc, exists sum,
    py_sum acc vs = Ok sum /\ acc <= sum /\ sum <= acc + Qnat (length vs).
Proof.
  induction 1 as [|v vs (q & Hq & Hq0 & Hq1) _ IH]; intros acc; simpl.
  - exists acc. split; [reflexivity|]. split; [apply Qle_refl|].
    unfold Qnat. simpl. rewrite Qplus_0_r. apply Qle_refl.
  - rewrite Hq. cbn [bind]. destruct (IH (acc + q)) as (sum & Hsum & Hlo & Hhi).
    exists sum. split; [exact Hsum|]. split.
    + apply Qle_trans with (acc + q); [|exact Hlo].
      rewrite <- (Qplus_0_r acc) at 1. now apply Qplus_le_r.
    + apply Qle_trans with (acc + q + Qnat (length vs)); [exact Hhi|].
      change (Datatypes.length (v :: vs)) with (S (length vs)).
      rewrite Qnat_succ, Qplus_assoc. apply Qplus_le_l. now apply Qplus_le_r.
Qed.

Lemma mean_unit (sum : Q) (n : nat) :
  n <> O -> 0 <= sum -> sum <= 0 + Qnat n ->
  0 <= sum / Qnat n /\ sum / Qnat n <= 1.
Proof.
  intros Hn Hlo Hhi. rewrite Qplus_0_l in Hhi.
  assert (Hpos : 0 < Qnat n).
  { unfold Qnat, Qlt. simpl. lia. }
  split.
  - apply Qle_shift_div_l; [exact Hpos|]. now rewrite Qmult_0_l.
  - apply Qle_shift_div_r; [exact Hpos|]. now rewrite Qmult_1_l.
Qed.

Lemma count_combine_le {A : Type} (f : A * string -> bool) (g : string -> bool)
    (xs : list A) :
  (forall pt, f pt = true -> g (snd pt) = true) ->
  forall labels, (count f (combine xs labels) <= count g labels)%nat.
Proof.
  intros Hfg. unfold count.
  induction xs as [|x xs IH]; intros [|l labels]; simpl; try lia.
  specialize (IH labels). specialize (Hfg (x, l)). cbn [snd] in Hfg.
  destruct (f (x, l)); [rewrite Hfg by reflexivity|destruct (g l)]; simpl; lia.
Qed.

(** The fields of a returned summary. *)
Lemma evaluate_performance_fields (now : Z) (predictions : list Prediction)
    (true_labels : list string) (s : Summary) :
  evaluate_performance now predictions true_labels = Ok s ->
  let pairs := combine predictions true_labels in
  length predictions = length true_labels /\
  total_predictions s = length predictions /\
  correct_predictions s =
    count (fun pt => eq_str (Some (predicted_class (fst pt))) (snd pt)) pairs /\
  cat_correct s =
    count (fun pt => eq_str (Some (predicted_class (fst pt))) "cat" && (snd pt =? "cat"))
          pairs /\
  dog_correct s =
    count (fun pt => eq_str (Some (predicted_class (fst pt))) "dog" && (snd pt =? "dog"))
          pairs /\
  cat_total s = count (fun t => t =? "cat") true_labels /\
  dog_total s = count (fun t => t =? "dog") true_labels /\
  ratio (correct_predictions s) (total_predictions s) = Ok (overall_accuracy s) /\
  ratio (cat_correct s) (cat_total s) = Ok (cat_accuracy s) /\
  ratio (dog_correct s) (dog_total s) = Ok (dog_accuracy s).
Proof.
  unfold evaluate_performance.
  destruct (length predictions =? length true_labels)%nat eqn:Hlen;
    [|discriminate]. apply Nat.eqb_eq in Hlen. cbn [negb].
  destruct (ratio _ (length predictions)) as [acc|] eqn:Hacc; [|discriminate].
  cbn [bind].
  match goal with
  | |- context [bind ?avg _] => destruct avg as [avgc|]; [|discriminate]
  end.
  cbn [bind].
  destruct (ratio _ (count (fun t => t =? "cat") true_labels)) as [ca|] eqn:Hca;
    [|discriminate]. cbn [bind].
  destruct (ratio _ (count (fun t => t =? "dog") true_labels)) as [da|] eqn:Hda;
    [|discriminate]. cbn [bind].
  intros [= <-]. cbn. repeat split; assumption.
Qed.

(** X24. On as many predictions as labels, all with a confidence between
    0 and 1, [evaluate_performance] returns a summary (the empty evaluation
    included: no division by zero) in which the correct predictions do not
    exceed the total nor, per class, the number of images of the class, and
    the three accuracies and the average confidence lie between 0 and 1. *)
Theorem evaluate_performance_returns :
  forall (now : Z) (predictions : list Prediction) (true_labels : list string),
    length predictions = length true_labels ->
    Forall unit_confidence predictions ->
    exists s,
      evaluate_performance now predictions true_labels = Ok s /\
      total_predictions s = length predictions /\
      (correct_predictions s <= total_predictions s)%nat /\
      (cat_correct s <= cat_total s)%nat /\
      (dog_correct s <= dog_total s)%nat /\
      (0 <= overall_accuracy s /\ overall_accuracy s <= 1) /\
      (0 <= cat_accuracy s /\ cat_accuracy s <= 1) /\
      (0 <= dog_accuracy s /\ dog_accuracy s <= 1) /\
      (0 <= average_confidence s /\ average_confidence s <= 1).
Proof.
  intros now predictions true_labels Hlen Hnum.
  set (pairs := combine predictions true_labels).
  assert (Hc : (count (fun pt : Prediction * string =>
                         eq_str (Some (predicted_class (fst pt))) (snd pt)) pairs
                <= length predictions)%nat).
  { etransitivity; [apply count_le_length|]. unfold pairs.
    rewrite length_combine. lia. }
  assert (Hcat : (count (fun pt : Prediction * string =>
                           eq_str (Some (predicted_class (fst pt))) "cat"
                           && (snd pt =? "cat")%string) pairs
                  <= count (fun t : string => (t =? "cat")%string) true_labels)%nat).
  { apply count_combine_le. intros pt H. now apply andb_prop in H. }
  assert (Hdog : (count (fun pt : Prediction * string =>
                           eq_str (Some (predicted_class (fst pt))) "dog"
                           && (snd pt =? "dog")%string) pairs
                  <= count (fun t : string => (t =? "dog")%string) true_labels)%nat).
  { apply count_combine_le. intros pt H. now apply andb_prop in H. }
  destruct (ratio_bounds _ _ Hc) as (acc & Hacc & Hacc0 & Hacc1).
  destruct (ratio_bounds _ _ Hcat) as (ca & Hca & Hca0 & Hca1).
  destruct (ratio_bounds _ _ Hdog) as (da & Hda & Hda0 & Hda1).
  assert (Havg : exists avg,
    match map (fun pt : Prediction * string => confidence (fst pt)) pairs with
    | [] => Ok 0
    | _ => sum <- py_sum 0 (map (fun pt : Prediction * string => confidence (fst pt)) pairs) ;;
           py_div sum (Qnat (length (map (fun pt : Prediction * string =>
                                             confidence (fst pt)) pairs)))
    end = Ok avg /\ 0 <= avg /\ avg <= 1).
  { destruct (map (fun pt : Prediction * string => confidence (fst pt)) pairs)
      as [|v vs] eqn:Hvs.
    { exists 0. split; [reflexivity|]. split; [apply Qle_refl | discriminate]. }
    destruct (py_sum_unit (v :: vs)) with (acc := 0) as (sum & Hsum & Hlo & Hhi).
    - rewrite <- Hvs. apply Forall_forall. intros x Hx.
      apply in_map_iff in Hx as (pt & <- & Hpt).
      rewrite Forall_forall in Hnum. apply Hnum.
      destruct pt as [p l]. now apply in_combine_l in Hpt.
    - rewrite Hsum. cbn [bind]. rewrite py_div_ok by discriminate.
      eexists. split; [reflexivity|].
      apply mean_unit; [discriminate | exact Hlo | exact Hhi]. }
  destruct Havg as (avg & Havg & Havg0 & Havg1).
  unfold evaluate_performance. fold pairs.
  apply Nat.eqb_eq in Hlen. rewrite Hlen. cbn [negb].
  rewrite Hacc. cbn [bind]. rewrite Havg. cbn [bind].
  rewrite Hca. cbn [bind]. rewrite Hda. cbn [bind].
  eexists. split; [reflexivity|]. cbn. repeat split; assumption.
Qed.

Lemma evaluate_performance_returns_witness :
  exists s,
    evaluate_performance 0 example_predictions example_labels = Ok s /\
    total_predictions s = length example_predictions /\
    (correct_predictions s <= total_predictions s)%nat /\
    (cat_correct s <= cat_total s)%nat /\
    (dog_correct s <= dog_total s)%nat /\
    (0 <= overall_accuracy s /\ overall_accuracy s <= 1) /\
    (0 <= cat_accuracy s /\ cat_accuracy s <= 1) /\
    (0 <= dog_accuracy s /\ dog_accuracy s <= 1) /\
    (0 <= average_confidence s /\ average_confidence s <= 1).
Proof.
  apply (evaluate_performance_returns 0 example_predictions example_labels).
  - reflexivity.
  - repeat constructor; eexists; (split; [reflexivity|]); split; discriminate.
Defined.

End EvalMore.

Section EvalRuns.
Import Net Eval Observe Cases.

Lemma load_test_data_labels (w : World) :
  Forall (fun l => l = "cat" \/ l = "dog") (snd (load_test_data w)).
Proof.
  unfold load_test_data. cbn [snd flat_map]. rewrite app_nil_r, map_app.
  apply Forall_app. split; unfold load_class.
  - destruct (class_dir w "cat") as [files|]; [|constructor].
    rewrite map_map. apply Forall_forall. intros lbl Hl.
    apply in_map_iff in Hl as (f & <- & _). now left.
  - destruct (class_dir w "dog") as [files|]; [|constructor].
    rewrite map_map. apply Forall_forall. intros lbl Hl.
    apply in_map_iff in Hl as (f & <- & _). now right.
Qed.

Lemma class_totals_add_up (labels : list string) :
  Forall (fun l => l = "cat" \/ l = "dog") labels ->
  (count (fun t : string => (t =? "cat")%string) labels
   + count (fun t : string => (t =? "dog")%string) labels)%nat
  = length labels.
Proof.
  unfold count. induction 1 as [|l labels [-> | ->] _ IH]; simpl; lia.
Qed.

Lemma class_corrects_add_up (predictions : list Prediction) :
  forall labels,
    Forall (fun l => l = "cat" \/ l = "dog") labels ->
    count (fun pt => eq_str (Some (predicted_class (fst pt))) (snd pt))
          (combine predictions labels)
    = (count (fun pt : Prediction * string =>
                eq_str (Some (predicted_class (fst pt))) "cat" && (snd pt =? "cat")%string)
             (combine predictions labels)
       + count (fun pt : Prediction * string =>
                  eq_str (Some (predicted_class (fst pt))) "dog" && (snd pt =? "dog")%string)
               (combine predictions labels))%nat.
Proof.
  unfold count.
  induction predictions as [|p ps IH]; intros labels Hl; [reflexivity|].
  destruct Hl as [|l labels Hl Hrest]; [reflexivity|].
  specialize (IH labels Hrest). cbn [combine filter fst snd].
  assert (Hcd : ("cat" =? "dog") = false) by reflexivity.
  assert (Hdc : ("dog" =? "cat") = false) by reflexivity.
  destruct Hl as [-> | ->];
    rewrite ?String.eqb_refl, ?Hcd, ?Hdc, ?andb_true_r, ?andb_false_r;
    destruct (eq_str (Some (predicted_class p)) _); cbn [length]; lia.
Qed.

Lemma run_evaluation_summary (now : Z) (save_to_file : bool)
    (ev : PostDeploymentEvaluator) (w : World) (s : Summary) :
  fst (run_evaluation now save_to_file ev w) = Ok (Some s) ->
  evaluate_performance now (fst (predict_batch ev (fst (load_test_data w)) w))
    (snd (load_test_data w)) = Ok s.
Proof.
  unfold run_evaluation.
  destruct (load_test_data w) as [image_paths true_labels]. cbn [fst snd].
  destruct image_paths as [|img rest]; [discriminate|].
  destruct (predict_batch ev (img :: rest) w) as [predictions w1]. cbn [fst].
  destruct (evaluate_performance now predictions true_labels) as [r|]; [|discriminate].
  destruct save_to_file.
  - unfold save_results. destruct (can_save w1); cbn [fst]; congruence.
  - cbn [fst]. congruence.
Qed.

(** X25. In every summary that [run_evaluation] returns, all loaded images
    were evaluated and the counts add up: the total is the number of cat
    images plus the number of dog images, and the correct predictions are
    the correct cat predictions plus the correct dog predictions. *)
Theorem run_evaluation_counts_add_up :
  forall (now : Z) (save_to_file : bool) (ev : PostDeploymentEvaluator)
         (w : World) (s : Summary),
    fst (run_evaluation now save_to_file ev w) = Ok (Some s) ->
    total_predictions s = length (fst (load_test_data w)) /\
    total_predictions s = (cat_total s + dog_total s)%nat /\
    correct_predictions s = (cat_correct s + dog_correct s)%nat.
Proof.
  intros now save_to_file ev w s Hrun.
  apply run_evaluation_summary in Hrun.
  destruct (evaluate_performance_fields _ _ _ _ Hrun)
    as (Hlen & Htot & Hcor & Hcc & Hdc & Hct & Hdt & _).
  pose proof (load_test_data_labels w) as Hlabels.
  rewrite Htot, Hcor, Hcc, Hdc, Hct, Hdt, Hlen.
  rewrite (class_totals_add_up _ Hlabels).
  split; [symmetry; apply load_test_data_lengths|]. split; [reflexivity|].
  now apply class_corrects_add_up.
Qed.

Lemma run_evaluation_counts_add_up_witness :
  exists s,
    fst (run_evaluation 0 true local_evaluator w_two_images) = Ok (Some s) /\
    (total_predictions s = length (fst (load_test_data w_two_images)) /\
     total_predictions s = (cat_total s + dog_total s)%nat /\
     correct_predictions s = (cat_correct s + dog_correct s)%nat).
Proof.
  eexists. split; [vm_compute; reflexivity|].
  apply (run_evaluation_counts_add_up 0 true local_evaluator w_two_images).
  vm_compute. reflexivity.
Defined.

(** X26. Without any test image [run_evaluation] returns nothing, posts
    nothing and writes nothing; the script's [main] then raises a
    [TypeError] when it prints the summary. *)
Theorem no_test_images_breaks_main :
  forall (now : Z) (save_to_file : bool) (ev : PostDeploymentEvaluator)
         (args : EvalCli.Args) (w : World),
    fst (load_test_data w) = [] ->
    run_evaluation now save_to_file ev w = (Ok None, w) /\
    EvalCli.main now args w =
      (Raise (TypeError "'NoneType' object is not subscriptable"), w).
Proof.
  intros now save_to_file ev args w Hempty.
  unfold EvalCli.main, run_evaluation.
  destruct (load_test_data w) as [image_paths true_labels].
  cbn [fst] in Hempty. subst image_paths. split; reflexivity.
Qed.

Lemma no_test_images_breaks_main_witness :
  run_evaluation 0 true local_evaluator w_no_images = (Ok None, w_no_images) /\
  EvalCli.main 0
    {| EvalCli.api_url := "http://localhost:8000";
       EvalCli.output := "post_deployment_evaluation.json";
       EvalCli.no_save := false |} w_no_images =
    (Raise (TypeError "'NoneType' object is not subscriptable"), w_no_images).
Proof.
  apply (no_test_images_breaks_main 0 true local_evaluator _ w_no_images).
  reflexivity.
Defined.

Lemma predict_batch_keeps_can_save (ev : PostDeploymentEvaluator)
    (image_paths : list string) :
  forall w, can_save (snd (predict_batch ev image_paths w)) = can_save w.
Proof.
  induction image_paths as [|img rest IH]; intros w; simpl; [reflexivity|].
  destruct (can_open w img); [|apply IH].
  specialize (IH (with_net (record (Post (api_url ev ++ "/predict")%string img) (net w)) w)).
  destruct (predict_batch ev rest _) as [ps w2]. exact IH.
Qed.

(** X27. What [run_evaluation] leaves in the output file: when asked to
    save and returning a summary, exactly that summary; when asked not to
    save, what was there before; and when the file cannot be opened for
    writing, a run asked to save returns no summary at all. *)
Theorem run_evaluation_output_file :
  forall (now : Z) (ev : PostDeploymentEvaluator) (w : World),
    (forall s, fst (run_evaluation now true ev w) = Ok (Some s) ->
               output_file (snd (run_evaluation now true ev w)) = Some s) /\
    output_file (snd (run_evaluation now false ev w)) = output_file w /\
    (can_save w = false ->
     forall s, fst (run_evaluation now true ev w) <> Ok (Some s)).
Proof.
  intros now ev w. unfold run_evaluation.
  destruct (load_test_data w) as [image_paths true_labels].
  destruct image_paths as [|img rest].
  - repeat split; discriminate.
  - pose proof (predict_batch_keeps_output ev (img :: rest) w) as Hout.
    pose proof (predict_batch_keeps_can_save ev (img :: rest) w) as Hsave.
    destruct (predict_batch ev (img :: rest) w) as [predictions w1].
    cbn [snd] in Hout, Hsave.
    destruct (evaluate_performance now predictions true_labels) as [r|e].
    + unfold save_results. rewrite Hsave. repeat split.
      * destruct (can_save w); cbn [fst snd output_file]; congruence.
      * exact Hout.
      * intros Hno s. rewrite Hno. discriminate.
    + repeat split; try discriminate. exact Hout.
Qed.

End EvalRuns.

Section EvalFaults.
Import Net Eval Observe Cases.

Lemma py_sum_raises (vs : list json) (v : json) :
  In v vs -> (forall q, number v <> Ok q) ->
  forall acc, py_sum acc vs = Raise not_a_number.
Proof.
  intros Hin Hv. induction vs as [|v0 vs IH]; intros acc; [inversion Hin|].
  simpl. destruct (number v0) as [q|e] eqn:Hq.
  - cbn [bind]. apply IH. destruct Hin as [-> | Hin]; [|exact Hin].
    exfalso. exact (Hv q Hq).
  - cbn [bind]. destruct v0; simpl in Hq; try discriminate Hq; now injection Hq as <-.
Qed.

Lemma map_fst_combine {A B : Type} (xs : list A) :
  forall ys : list B, length xs = length ys -> map fst (combine xs ys) = xs.
Proof.
  induction xs as [|x xs IH]; intros [|y ys] Hlen; try discriminate; [reflexivity|].
  simpl. f_equal. apply IH. now injection Hlen.
Qed.

(** X28. [predict_batch] copies the confidence of a response without
    looking at it. Among predictions whose confidence, when it is a number,
    lies between 0 and 1, a single one whose confidence is not a number
    (for instance [null]) makes [evaluate_performance] raise a [TypeError]
    instead of returning a summary, although the lengths match. *)
Theorem evaluate_performance_rejects_non_numeric_confidence :
  forall (now : Z) (predictions : list Prediction) (true_labels : list string)
         (p : Prediction),
    length predictions = length true_labels ->
    Forall (fun x => unit_confidence x \/ ~ numeric_confidence x) predictions ->
    In p predictions ->
    ~ numeric_confidence p ->
    evaluate_performance now predictions true_labels = Raise not_a_number.
Proof.
  intros now predictions true_labels p Hlen _ Hin Hp.
  assert (Hconf : In (confidence p)
                     (map (fun pt : Prediction * string => confidence (fst pt))
                          (combine predictions true_labels))).
  { rewrite <- (map_map fst confidence), (map_fst_combine _ _ Hlen).
    now apply in_map. }
  assert (Hc : (count (fun pt : Prediction * string =>
                         eq_str (Some (predicted_class (fst pt))) (snd pt))
                      (combine predictions true_labels)
                <= length predictions)%nat).
  { etransitivity; [apply count_le_length|]. rewrite length_combine. lia. }
  destruct (ratio_bounds _ _ Hc) as (acc & Hacc & _).
  unfold evaluate_performance.
  apply Nat.eqb_eq in Hlen. rewrite Hlen. cbn [negb].
  rewrite Hacc. cbn [bind].
  destruct (map (fun pt : Prediction * string => confidence (fst pt))
                (combine predictions true_labels)) as [|v vs] eqn:Hvs;
    [inversion Hconf|].
  rewrite (py_sum_raises (v :: vs) (confidence p) Hconf); [reflexivity|].
  intros q Hq. apply Hp. now exists q.
Qed.

Lemma evaluate_performance_rejects_non_numeric_confidence_witness :
  evaluate_performance 0
    [Observe.example_prediction "0.jpg" "cat" 0.9; null_confidence_prediction]
    ["cat"; "cat"] = Raise not_a_number.
Proof.
  apply (evaluate_performance_rejects_non_numeric_confidence 0
           [Observe.example_prediction "0.jpg" "cat" 0.9; null_confidence_prediction]
           ["cat"; "cat"] null_confidence_prediction).
  - reflexivity.
  - constructor.
    + left. exists 0.9. split; [reflexivity|]. split; discriminate.
    + constructor; [|constructor]. right. intros [q Hq]. discriminate Hq.
  - right. left. reflexivity.
  - intros [q Hq]. discriminate Hq.
Defined.

End EvalFaults.

Section DeploySuccess.
Import Net Deploy Observe Cases.

(** X29. A deployment that returns [True] has executed every command of its
    plan, in order and before anything else, and after them only requests
    and pauses: no further command. *)
Theorem successful_deploy_ran_whole_plan :
  forall (run_tests : bool) (dm : DeploymentManager) (w : World),
    fst (deploy run_tests dm w) = true ->
    exists commands evs,
      provisioning_commands dm = Some commands /\
      history (snd (deploy run_tests dm w)) = history w ++ map Run commands ++ evs /\
      commands_of evs = [].
Proof.
  intros run_tests dm w Hok.
  apply deploy_stages in Hok as (commands & w1 & w2 & Hplan & Hrun & _).
  pose proof (deploy_quiet_after_commands run_tests dm w) as Hquiet.
  unfold plan in Hquiet. rewrite Hplan, Hrun in Hquiet. cbn [snd] in Hquiet.
  destruct Hquiet as (evs & Hh & Hc).
  exists commands, evs. split; [exact Hplan|]. split; [|exact Hc].
  rewrite Hh, (run_commands_ok_history commands w w1 Hrun), <- app_assoc. reflexivity.
Qed.

Lemma successful_deploy_ran_whole_plan_witness :
  exists commands evs,
    provisioning_commands (new "k8s") = Some commands /\
    history (snd (deploy false (new "k8s") w_up)) = history w_up ++ map Run commands ++ evs /\
    commands_of evs = [].
Proof.
  apply (successful_deploy_ran_whole_plan false (new "k8s") w_up). reflexivity.
Defined.

End DeploySuccess.
